(** * The agent demo: safe calculator, extraction heuristics and dispatcher

    A shallow embedding of

    - [src/gradio/dashboard.py] (module [Gradio]),
    - [src/streamlit/dashboard.py] (module [Streamlit]),
    - [src/crewai/calculator_example/.../tools/custom_tool.py]
      (module [Crewai]),

    together with the part of the Python runtime these files call:
    [str] methods, [int]/[float] arithmetic, the [ast] node classes, the
    regular expression [_MATH_RE] and [int()].

    Conventions.

    - A Python [str] is the list of its code points ([pystr]); [py] reads
      a UTF-8 literal and its [\n] escapes, so the literals below are the
      ones of the source.
    - A Python [int] is a [Z]; a Python [float] is an IEEE 754 binary64
      number ([spec_float] at precision 53, emax 1024).
    - A computation that may raise is a [result]; [try ... except
      Exception] is [try_except].  The type [exn] stands for instances of
      [Exception].
    - What the sources obtain from the interpreter and cannot be written
      down from the sources alone is a field of the record [host]: the
      parser [ast.parse], the C library behind [float] power, floor
      division and remainder, [complex] arithmetic, [repr] of floats, the
      Unicode tables beyond ASCII, and the clock.  Every theorem holds for
      every host.  [py_parse] is a model of [ast.parse] on the arithmetic
      fragment, used for the concrete strings.
    - The model follows CPython 3.9 to 3.13, where [ast.Num] is the
      deprecated alias of [ast.Constant] restricted to numbers; the
      texts of the interpreter's messages are those of CPython 3.11.
      Interpreter resource limits (memory, recursion depth, the cap on
      the length of int/str conversions) are outside the model. *)

From Stdlib Require Import String Ascii.
From Stdlib Require Import ZArith NArith List Bool Lia.
From Stdlib Require Import Floats.SpecFloat.
From Stdlib Require Import DecimalString.
From Stdlib Require DecimalPos DecimalZ.
From Equations Require Import Equations.
Import ListNotations.

Set Implicit Arguments.
Set Warnings "-register-all".

Local Open Scope string_scope.
Local Open Scope list_scope.

(* ===================================================================== *)
(** * Python strings                                                      *)
(* ===================================================================== *)

Module PyStr.

(** A [str] is a sequence of Unicode code points. *)
Definition pystr := list N.

(** UTF-8 decoding of a literal of this file. *)
Definition cont (b : N) : N := N.land b 63.

Fixpoint utf8_decode (bs : list N) : pystr :=
  match bs with
  | [] => []
  | b0 :: r0 =>
    if (b0 <? 128)%N then b0 :: utf8_decode r0
    else match r0 with
    | [] => [65533%N]
    | b1 :: r1 =>
      if (b0 <? 224)%N
      then (N.land b0 31 * 64 + cont b1)%N :: utf8_decode r1
      else match r1 with
      | [] => [65533%N]
      | b2 :: r2 =>
        if (b0 <? 240)%N
        then (N.land b0 15 * 4096 + cont b1 * 64 + cont b2)%N
               :: utf8_decode r2
        else match r2 with
        | [] => [65533%N]
        | b3 :: r3 =>
          (N.land b0 7 * 262144 + cont b1 * 4096 + cont b2 * 64 + cont b3)%N
            :: utf8_decode r3
        end
      end
    end
  end.

(** The escape [\n] of a Python literal. *)
Fixpoint unescape (s : pystr) : pystr :=
  match s with
  | [] => []
  | c :: s' =>
    match s' with
    | d :: s'' =>
      if ((c =? 92) && (d =? 110))%N then 10%N :: unescape s''
      else c :: unescape s'
    | [] => [c]
    end
  end.

(** [py "..."] is the Python literal ["..."]. *)
Definition py (s : string) : pystr :=
  unescape (utf8_decode (map N_of_ascii (list_ascii_of_string s))).

(** [a == b] on strings. *)
Fixpoint str_eqb (a b : pystr) : bool :=
  match a, b with
  | [], [] => true
  | x :: a', y :: b' => (x =? y)%N && str_eqb a' b'
  | _, _ => false
  end.

(** [ch in chars], for a single character [ch]. *)
Definition char_in (c : N) (chars : pystr) : bool :=
  existsb (N.eqb c) chars.

(** [s.startswith(p)]. *)
Fixpoint startswith (p s : pystr) : bool :=
  match p, s with
  | [], _ => true
  | x :: p', y :: s' => (x =? y)%N && startswith p' s'
  | _ :: _, [] => false
  end.

(** [sub in s]: [sub] occurs in [s] as a substring. *)
Fixpoint contains (sub s : pystr) : bool :=
  startswith sub s ||
  match s with
  | [] => false
  | _ :: s' => contains sub s'
  end.

(** [str.isspace] on one character ([Py_UNICODE_ISSPACE]); the same
    class is the one of [\s] in a [str] pattern and the one removed by
    [str.strip()]. *)
Definition isspace (c : N) : bool :=
  ((9 <=? c) && (c <=? 13) || (28 <=? c) && (c <=? 32)
   || (c =? 133) || (c =? 160) || (c =? 5760)
   || (8192 <=? c) && (c <=? 8202)
   || (c =? 8232) || (c =? 8233) || (c =? 8239) || (c =? 8287)
   || (c =? 12288))%N.

Fixpoint lstrip_by (drop : N -> bool) (s : pystr) : pystr :=
  match s with
  | [] => []
  | c :: s' => if drop c then lstrip_by drop s' else s
  end.

Definition strip_by (drop : N -> bool) (s : pystr) : pystr :=
  rev (lstrip_by drop (rev (lstrip_by drop s))).

(** [s.strip()]. *)
Definition strip (s : pystr) : pystr := strip_by isspace s.

(** [s.strip(chars)]. *)
Definition strip_chars (chars s : pystr) : pystr :=
  strip_by (fun c => char_in c chars) s.

(** [sep.join(parts)]. *)
Fixpoint join (sep : pystr) (parts : list pystr) : pystr :=
  match parts with
  | [] => []
  | [p] => p
  | p :: rest => p ++ sep ++ join sep rest
  end.

Definition is_ascii (c : N) : bool := (c <? 128)%N.
Definition is_upper (c : N) : bool := ((65 <=? c) && (c <=? 90))%N.
Definition is_lower (c : N) : bool := ((97 <=? c) && (c <=? 122))%N.
Definition is_ascii_digit (c : N) : bool := ((48 <=? c) && (c <=? 57))%N.
Definition to_lower (c : N) : N := if is_upper c then (c + 32)%N else c.
Definition to_upper (c : N) : N := if is_lower c then (c - 32)%N else c.

(** [s.title()] on ASCII text: a cased letter is upper-cased after an
    uncased character (or at the start) and lower-cased after a cased
    one.  The sources call it on the city names of [CITY_TZ] and on
    "your timezone" only. *)
Fixpoint title_from (prev_cased : bool) (s : pystr) : pystr :=
  match s with
  | [] => []
  | c :: s' =>
    let cased := is_upper c || is_lower c in
    (if prev_cased then to_lower c else to_upper c) :: title_from cased s'
  end.

Definition title (s : pystr) : pystr := title_from false s.

(** The Unicode character database beyond ASCII. *)
Record unicode := {
  (** [str.lower] of a text that is not pure ASCII *)
  uni_lower : pystr -> pystr;
  (** [str.isdecimal] (general category Nd, the class [\d] of [re]) *)
  uni_isdecimal : N -> bool;
  (** [str.isdigit] *)
  uni_isdigit : N -> bool;
  (** the value of a decimal character, as [int()] reads it *)
  uni_decimal_value : N -> N
}.

Section Unicode.
Variable u : unicode.

(** [s.lower()]. *)
Definition lower (s : pystr) : pystr :=
  if forallb is_ascii s then map to_lower s else uni_lower u s.

(** [ch.isdigit()]. *)
Definition isdigit (c : N) : bool :=
  if is_ascii c then is_ascii_digit c else uni_isdigit u c.

(** [ch.isdecimal()]. *)
Definition isdecimal (c : N) : bool :=
  if is_ascii c then is_ascii_digit c else uni_isdecimal u c.

Definition decimal_value (c : N) : N :=
  if is_ascii c then (c - 48)%N else uni_decimal_value u c.
End Unicode.

End PyStr.
Import PyStr.

(* ===================================================================== *)
(** * Exceptions                                                          *)
(* ===================================================================== *)

Inductive exn_class :=
| SyntaxError | ValueError | ZeroDivisionError | OverflowError | TypeError
| OtherException.

(** An exception instance: its class and [str(e)]. *)
Record exn := Exn { exn_cls : exn_class; exn_str : pystr }.

Inductive result (A : Type) :=
| Ok (a : A)
| Raise (e : exn).
Arguments Ok {A} a.
Arguments Raise {A} e.

Definition bind {A B} (c : result A) (k : A -> result B) : result B :=
  match c with
  | Ok a => k a
  | Raise e => Raise e
  end.

Notation "x <- c ;; k" := (bind c (fun x => k))
  (at level 61, c at next level, right associativity).

(** [try: body  except Exception as e: handler(e)]. *)
Definition try_except {A} (body : result A) (handler : exn -> A) : A :=
  match body with
  | Ok a => a
  | Raise e => handler e
  end.

Definition raise {A} (c : exn_class) (msg : string) : result A :=
  Raise (Exn c (py msg)).

(* ===================================================================== *)
(** * Python numbers                                                      *)
(* ===================================================================== *)

Module PyNum.

(** ** [float]: IEEE 754 binary64 *)

Definition float := spec_float.
Definition prec : Z := 53.
Definition emax : Z := 1024.

Definition f_add : float -> float -> float := SFadd prec emax.
Definition f_sub : float -> float -> float := SFsub prec emax.
Definition f_mul : float -> float -> float := SFmul prec emax.
Definition f_div : float -> float -> float := SFdiv prec emax.
Definition f_abs : float -> float := SFabs.
Definition f_neg : float -> float := SFopp.
Definition f_ltb : float -> float -> bool := SFltb.

Definition f_is_zero (x : float) : bool :=
  match x with
  | S754_zero _ => true
  | _ => false
  end.

(** The quotient [n / d] of two integers, [d <> 0], rounded to the
    nearest float, ties to even; an infinity when it is out of range. *)
Definition float_of_ratio (n d : Z) : float :=
  let neg := xorb (n <? 0)%Z (d <? 0)%Z in
  if (n =? 0)%Z then S754_zero neg
  else
    let '(m, e, l) :=
      SFdiv_core_binary prec emax (Z.abs n) 0 (Z.abs d) 0 in
    binary_round_aux prec emax neg m e l.

(** The float nearest to the integer [z]. *)
Definition float_of_Z (z : Z) : float := binary_normalize prec emax z 0 false.

(** The value of a decimal literal [digits * 10 ^ exp10]. *)
Definition float_of_decimal (digits exp10 : Z) : float :=
  if (0 <=? exp10)%Z then float_of_Z (digits * 10 ^ exp10)
  else float_of_ratio digits (10 ^ (- exp10)).

(** The literal [1e-12]. *)
Definition f_1e_12 : float := float_of_decimal 1 (-12).

(** ** Values the calculator computes with *)

Inductive value :=
| VInt (z : Z)
| VBool (b : bool)
| VFloat (x : float)
| VComplex (re im : float).

(** [bool] is a subclass of [int]. *)
Definition int_of_bool (b : bool) : Z := if b then 1%Z else 0%Z.

(** [float(z)] for an [int], as the arithmetic operators convert it. *)
Definition to_float (z : Z) : result float :=
  match float_of_Z z with
  | S754_infinity _ => raise OverflowError "int too large to convert to float"
  | x => Ok x
  end.

(** [round(x)] for a float, without [ndigits]: the nearest integer,
    ties to even. *)
Definition round_half_even (n d : Z) : Z :=
  let q := (n / d)%Z in
  let r := (n mod d)%Z in
  match (2 * r ?= d)%Z with
  | Lt => q
  | Gt => (q + 1)%Z
  | Eq => if Z.even q then q else (q + 1)%Z
  end.

Definition py_round (x : float) : result Z :=
  match x with
  | S754_nan => raise ValueError "cannot convert float NaN to integer"
  | S754_infinity _ =>
      raise OverflowError "cannot convert float infinity to integer"
  | S754_zero _ => Ok 0%Z
  | S754_finite s m e =>
      let mag :=
        if (0 <=? e)%Z then (Zpos m * 2 ^ e)%Z
        else round_half_even (Zpos m) (2 ^ (- e)) in
      Ok (if s then (- mag)%Z else mag)
  end.

(** [str(z)] for an [int]. *)
Definition str_int (z : Z) : pystr :=
  py (NilZero.string_of_int (Z.to_int z)).

(** ** The functions of module [operator] used by the sources *)

Inductive builtin :=
| op_add | op_sub | op_mul | op_truediv | op_floordiv | op_mod | op_pow
| op_neg | op_pos.

(** What CPython delegates to the C library or to [complex]. *)
Record libm := {
  (** [x ** y] on floats (it may raise, and yields a [complex] for a
      negative base with a fractional exponent) *)
  float_pow : float -> float -> result value;
  (** [x // y] and [x % y] on floats, for [y != 0] *)
  float_floordiv : float -> float -> float;
  float_rem : float -> float -> float;
  (** an operator applied to arguments one of which is a [complex] *)
  complex_call : builtin -> list value -> result value;
  (** [repr] of a float and of a complex *)
  float_repr : float -> pystr;
  complex_repr : float -> float -> pystr
}.

Section Operators.
Variable m : libm.

(** Operators on two [int] (or [bool]) operands. *)
Definition int_binop (f : builtin) (a b : Z) : result value :=
  match f with
  | op_add => Ok (VInt (a + b))
  | op_sub => Ok (VInt (a - b))
  | op_mul => Ok (VInt (a * b))
  | op_truediv =>
      if (b =? 0)%Z then raise ZeroDivisionError "division by zero"
      else match float_of_ratio a b with
           | S754_infinity _ =>
               raise OverflowError
                     "integer division result too large for a float"
           | x => Ok (VFloat x)
           end
  | op_floordiv =>
      if (b =? 0)%Z
      then raise ZeroDivisionError "integer division or modulo by zero"
      else Ok (VInt (a / b))
  | op_mod =>
      if (b =? 0)%Z then raise ZeroDivisionError "integer modulo by zero"
      else Ok (VInt (a mod b))
  | op_pow =>
      if (0 <=? b)%Z then Ok (VInt (a ^ b))
      else x <- to_float a ;; y <- to_float b ;; float_pow m x y
  | op_neg => raise TypeError "neg expected 1 argument, got 2"
  | op_pos => raise TypeError "pos expected 1 argument, got 2"
  end.

(** Operators on two [float] operands. *)
Definition float_binop (f : builtin) (x y : float) : result value :=
  match f with
  | op_add => Ok (VFloat (f_add x y))
  | op_sub => Ok (VFloat (f_sub x y))
  | op_mul => Ok (VFloat (f_mul x y))
  | op_truediv =>
      if f_is_zero y then raise ZeroDivisionError "float division by zero"
      else Ok (VFloat (f_div x y))
  | op_floordiv =>
      if f_is_zero y
      then raise ZeroDivisionError "float floor division by zero"
      else Ok (VFloat (float_floordiv m x y))
  | op_mod =>
      if f_is_zero y then raise ZeroDivisionError "float modulo"
      else Ok (VFloat (float_rem m x y))
  | op_pow => float_pow m x y
  | op_neg => raise TypeError "neg expected 1 argument, got 2"
  | op_pos => raise TypeError "pos expected 1 argument, got 2"
  end.

(** The operand as a float, when the other operand is one. *)
Definition as_float (v : value) : result float :=
  match v with
  | VInt z => to_float z
  | VBool b => to_float (int_of_bool b)
  | VFloat x => Ok x
  | VComplex _ _ => raise TypeError "can't convert complex to float"
  end.

Definition binop (f : builtin) (a b : value) : result value :=
  match a, b with
  | VComplex _ _, _ | _, VComplex _ _ => complex_call m f [a; b]
  | VInt x, VInt y => int_binop f x y
  | VInt x, VBool y => int_binop f x (int_of_bool y)
  | VBool x, VInt y => int_binop f (int_of_bool x) y
  | VBool x, VBool y => int_binop f (int_of_bool x) (int_of_bool y)
  | _, _ => x <- as_float a ;; y <- as_float b ;; float_binop f x y
  end.

Definition unop (f : builtin) (a : value) : result value :=
  match f, a with
  | (op_neg | op_pos), VComplex _ _ => complex_call m f [a]
  | op_neg, VInt z => Ok (VInt (- z))
  | op_neg, VBool b => Ok (VInt (- int_of_bool b))
  | op_neg, VFloat x => Ok (VFloat (f_neg x))
  | op_pos, VInt z => Ok (VInt z)
  | op_pos, VBool b => Ok (VInt (int_of_bool b))
  | op_pos, VFloat x => Ok (VFloat x)
  | _, _ => raise TypeError "operator expected 2 arguments, got 1"
  end.

(** Calling a function of [operator] on positional arguments. *)
Definition call (f : builtin) (args : list value) : result value :=
  match args with
  | [a] => unop f a
  | [a; b] => binop f a b
  | _ => raise TypeError "wrong number of arguments"
  end.

(** [str(v)]. *)
Definition str_value (v : value) : pystr :=
  match v with
  | VInt z => str_int z
  | VBool true => py "True"
  | VBool false => py "False"
  | VFloat x => float_repr m x
  | VComplex re im => complex_repr m re im
  end.

End Operators.

End PyNum.
Import PyNum.

(* ===================================================================== *)
(** * The [ast] module                                                    *)
(* ===================================================================== *)

Module PyAst.

(** The value of an [ast.Constant]: a number ([int], [bool], [float],
    [complex]) or something else. *)
Inductive constant :=
| CNum (v : value)
| CStr (s : pystr)
| CBytes (b : list N)
| CNone
| CEllipsis.

(** The classes of [node.op]: [ast.operator] and [ast.unaryop]. *)
Inductive operator :=
| Add | Sub | Mult | MatMult | Div | Mod | Pow
| LShift | RShift | BitOr | BitXor | BitAnd | FloorDiv.

Inductive unaryop := Invert | Not | UAdd | USub.

Inductive op_class :=
| BinCls (o : operator)
| UnCls (o : unaryop).

(** Nodes of a tree returned by [ast.parse(.., mode="eval")].  The
    classes the sources never look into are [Name], [Call], [Tuple] and
    [OtherNode], which stands for a node of any remaining class with
    its child nodes. *)
Inductive node :=
| Expression (body : node)
| Constant (value : constant)
| BinOp (left : node) (op : operator) (right : node)
| UnaryOp (op : unaryop) (operand : node)
| Name (id : pystr)
| Call (func : node) (args : list node)
| Tuple (elts : list node)
| OtherNode (cls : pystr) (children : list node).

Definition operator_eqb (a b : operator) : bool :=
  match a, b with
  | Add, Add | Sub, Sub | Mult, Mult | MatMult, MatMult | Div, Div
  | Mod, Mod | Pow, Pow | LShift, LShift | RShift, RShift
  | BitOr, BitOr | BitXor, BitXor | BitAnd, BitAnd
  | FloorDiv, FloorDiv => true
  | _, _ => false
  end.

Definition unaryop_eqb (a b : unaryop) : bool :=
  match a, b with
  | Invert, Invert | Not, Not | UAdd, UAdd | USub, USub => true
  | _, _ => false
  end.

Definition op_class_eqb (a b : op_class) : bool :=
  match a, b with
  | BinCls x, BinCls y => operator_eqb x y
  | UnCls x, UnCls y => unaryop_eqb x y
  | _, _ => false
  end.

(** [isinstance(v, (int, float))]; [bool] is a subclass of [int]. *)
Definition is_int_or_float (v : value) : bool :=
  match v with
  | VInt _ | VBool _ | VFloat _ => true
  | VComplex _ _ => false
  end.

(** [isinstance(node, ast.Num)] for a [Constant] of value [v]: the value
    is an [int], [float] or [complex] and not a [bool]. *)
Definition is_Num (v : value) : bool :=
  match v with
  | VInt _ | VFloat _ | VComplex _ _ => true
  | VBool _ => false
  end.

(** ** A model of [ast.parse(src, mode="eval")] on arithmetic

    [py_parse] reads one-line sources made of decimal integers, point
    and exponent floats, names, [True]/[False]/[None], the operators
    [+ - * / // % ** @ ~], parentheses and calls with at most one
    argument, blanks being spaces, tabs and form feeds.  Where it
    answers [Ok t], [t] is the tree CPython builds.  Its [SyntaxError]
    is CPython's verdict on malformed arithmetic; for sources using
    anything else (strings, commas, keywords, comparisons, newlines, ...)
    it stands for "outside the fragment", and the text of the message is
    not modelled. *)

Inductive token :=
| TNumber (c : constant)
| TName (id : pystr)
| TPlus | TMinus | TStar | TSlash | TDoubleSlash | TPercent | TDoubleStar
| TAt | TTilde | TLPar | TRPar.

Fixpoint span (p : N -> bool) (s : pystr) : pystr * pystr :=
  match s with
  | [] => ([], [])
  | c :: s' =>
    if p c then let '(a, b) := span p s' in (c :: a, b) else ([], s)
  end.

Definition digits_value (ds : pystr) : Z :=
  fold_left (fun acc d => (acc * 10 + (Z.of_N d - 48))%Z) ds 0%Z.

Definition is_name_start (c : N) : bool :=
  is_upper c || is_lower c || (c =? 95)%N.
Definition is_name_char (c : N) : bool :=
  is_name_start c || is_ascii_digit c.

Definition keywords : list pystr :=
  map py ["and"; "as"; "assert"; "async"; "await"; "break"; "class";
          "continue"; "def"; "del"; "elif"; "else"; "except"; "finally";
          "for"; "from"; "global"; "if"; "import"; "in"; "is"; "lambda";
          "nonlocal"; "not"; "or"; "pass"; "raise"; "return"; "try";
          "while"; "with"; "yield"].

(** The exponent part [e[+-]digits] of a float literal, if [s] starts
    with one: its value and the rest. *)
Definition scan_exponent (s : pystr) : option (Z * pystr) :=
  match s with
  | c :: s1 =>
    if ((c =? 101) || (c =? 69))%N then
      let '(neg, s2) :=
        match s1 with
        | 43%N :: s2 => (false, s2)
        | 45%N :: s2 => (true, s2)
        | _ => (false, s1)
        end in
      let '(ds, rest) := span is_ascii_digit s2 in
      match ds with
      | [] => None
      | _ => Some (if neg then (- digits_value ds)%Z else digits_value ds,
                   rest)
      end
    else None
  | [] => None
  end.

(** A number at the head of [s] (which starts with a digit, or with a
    point followed by a digit). *)
Definition scan_number (s : pystr) : option (constant * pystr) :=
  let '(ip, r1) := span is_ascii_digit s in
  let '(fp, r2, pointed) :=
    match r1 with
    | 46%N :: r =>
      let '(fp, r2) := span is_ascii_digit r in (fp, r2, true)
    | _ => ([], r1, false)
    end in
  let '(ex, r3, exped) :=
    match scan_exponent r2 with
    | Some (e, r) => (e, r, true)
    | None => (0%Z, r2, false)
    end in
  let followed :=
    match r3 with
    | c :: _ => is_name_char c || negb (is_ascii c)
    | [] => false
    end in
  if followed then None
  else if pointed || exped then
    Some (CNum (VFloat (float_of_decimal (digits_value (ip ++ fp))
                                          (ex - Z.of_nat (length fp)))),
          r3)
  else
    match ip with
    | 48%N :: _ :: _ =>
      if (digits_value ip =? 0)%Z then Some (CNum (VInt 0), r3) else None
    | _ => Some (CNum (VInt (digits_value ip)), r3)
    end.

Definition scan_name (s : pystr) : option (token * pystr) :=
  let '(id, rest) := span is_name_char s in
  let followed :=
    match rest with
    | c :: _ => negb (is_ascii c)
    | [] => false
    end in
  if followed then None
  else if str_eqb id (py "True") then Some (TNumber (CNum (VBool true)), rest)
  else if str_eqb id (py "False") then Some (TNumber (CNum (VBool false)), rest)
  else if str_eqb id (py "None") then Some (TNumber CNone, rest)
  else if existsb (str_eqb id) keywords then None
  else Some (TName id, rest).

Fixpoint tokenize (fuel : nat) (s : pystr) : option (list token) :=
  match fuel with
  | O => None
  | S f =>
    let cons t r :=
      match tokenize f r with
      | Some ts => Some (t :: ts)
      | None => None
      end in
    match s with
    | [] => Some []
    | c :: s' =>
      if ((c =? 32) || (c =? 9) || (c =? 12))%N then tokenize f s'
      else if is_ascii_digit c
                || ((c =? 46)%N
                    && match s' with d :: _ => is_ascii_digit d
                                   | [] => false end)
      then match scan_number s with
           | Some (k, r) => cons (TNumber k) r
           | None => None
           end
      else if is_name_start c
      then match scan_name s with
           | Some (t, r) => cons t r
           | None => None
           end
      else
        match c, s' with
        | 42%N, 42%N :: r => cons TDoubleStar r
        | 47%N, 47%N :: r => cons TDoubleSlash r
        | 43%N, _ => cons TPlus s'
        | 45%N, _ => cons TMinus s'
        | 42%N, _ => cons TStar s'
        | 47%N, _ => cons TSlash s'
        | 37%N, _ => cons TPercent s'
        | 64%N, _ => cons TAt s'
        | 126%N, _ => cons TTilde s'
        | 40%N, _ => cons TLPar s'
        | 41%N, _ => cons TRPar s'
        | _, _ => None
        end
    end
  end.

(** Recursive descent over the grammar

      sum     := sum ADDOP term | term          ADDOP is + or -
      term    := term MULOP factor | factor     MULOP is one of * / // % @
      factor  := UNOP factor | power            UNOP is + - or ~
      power   := primary ** factor | primary
      primary := primary LPAR [sum] RPAR | atom
      atom    := NAME | NUMBER | LPAR sum RPAR | LPAR RPAR *)

Definition term_op (t : token) : option operator :=
  match t with
  | TStar => Some Mult
  | TSlash => Some Div
  | TDoubleSlash => Some FloorDiv
  | TPercent => Some Mod
  | TAt => Some MatMult
  | _ => None
  end.

Definition sum_op (t : token) : option operator :=
  match t with
  | TPlus => Some Add
  | TMinus => Some Sub
  | _ => None
  end.

Definition factor_op (t : token) : option unaryop :=
  match t with
  | TPlus => Some UAdd
  | TMinus => Some USub
  | TTilde => Some Invert
  | _ => None
  end.

Fixpoint parse_sum (fuel : nat) (ts : list token)
  : option (node * list token) :=
  match fuel with
  | O => None
  | S f =>
    match parse_term f ts with
    | Some (l, rest) => parse_sum_rest f l rest
    | None => None
    end
  end
with parse_sum_rest (fuel : nat) (l : node) (ts : list token)
  : option (node * list token) :=
  match fuel with
  | O => None
  | S f =>
    match ts with
    | t :: ts' =>
      match sum_op t with
      | Some o =>
        match parse_term f ts' with
        | Some (r, rest) => parse_sum_rest f (BinOp l o r) rest
        | None => None
        end
      | None => Some (l, ts)
      end
    | [] => Some (l, ts)
    end
  end
with parse_term (fuel : nat) (ts : list token)
  : option (node * list token) :=
  match fuel with
  | O => None
  | S f =>
    match parse_factor f ts with
    | Some (l, rest) => parse_term_rest f l rest
    | None => None
    end
  end
with parse_term_rest (fuel : nat) (l : node) (ts : list token)
  : option (node * list token) :=
  match fuel with
  | O => None
  | S f =>
    match ts with
    | t :: ts' =>
      match term_op t with
      | Some o =>
        match parse_factor f ts' with
        | Some (r, rest) => parse_term_rest f (BinOp l o r) rest
        | None => None
        end
      | None => Some (l, ts)
      end
    | [] => Some (l, ts)
    end
  end
with parse_factor (fuel : nat) (ts : list token)
  : option (node * list token) :=
  match fuel with
  | O => None
  | S f =>
    match ts with
    | t :: ts' =>
      match factor_op t with
      | Some o =>
        match parse_factor f ts' with
        | Some (e, rest) => Some (UnaryOp o e, rest)
        | None => None
        end
      | None => parse_power f ts
      end
    | [] => None
    end
  end
with parse_power (fuel : nat) (ts : list token)
  : option (node * list token) :=
  match fuel with
  | O => None
  | S f =>
    match parse_atom f ts with
    | Some (a, rest) =>
      match parse_trailers f a rest with
      | Some (b, TDoubleStar :: rest') =>
        match parse_factor f rest' with
        | Some (e, rest'') => Some (BinOp b Pow e, rest'')
        | None => None
        end
      | other => other
      end
    | None => None
    end
  end
with parse_trailers (fuel : nat) (func : node) (ts : list token)
  : option (node * list token) :=
  match fuel with
  | O => None
  | S f =>
    match ts with
    | TLPar :: TRPar :: rest => parse_trailers f (Call func []) rest
    | TLPar :: ts' =>
      match parse_sum f ts' with
      | Some (a, TRPar :: rest) => parse_trailers f (Call func [a]) rest
      | _ => None
      end
    | _ => Some (func, ts)
    end
  end
with parse_atom (fuel : nat) (ts : list token)
  : option (node * list token) :=
  match fuel with
  | O => None
  | S f =>
    match ts with
    | TNumber c :: rest => Some (Constant c, rest)
    | TName id :: rest => Some (Name id, rest)
    | TLPar :: TRPar :: rest => Some (Tuple [], rest)
    | TLPar :: ts' =>
      match parse_sum f ts' with
      | Some (e, TRPar :: rest) => Some (e, rest)
      | _ => None
      end
    | _ => None
    end
  end.

Definition py_parse (src : pystr) : result node :=
  match tokenize (S (length src)) src with
  | Some ts =>
    match parse_sum (8 * length ts + 8) ts with
    | Some (e, []) => Ok (Expression e)
    | _ => raise SyntaxError "invalid syntax (<unknown>, line 1)"
    end
  | None => raise SyntaxError "invalid syntax (<unknown>, line 1)"
  end.

End PyAst.
Import PyAst.

(* ===================================================================== *)
(** * The [re] module, for the one pattern of the sources                 *)
(* ===================================================================== *)

Module PyRe.

(** An item of a character class. *)
Inductive class_item :=
| Lit (c : N)      (* the character itself *)
| ClsDigit         (* \d *)
| ClsSpace.        (* \s *)

(** A pattern [(?P<name>[items]{min,})]: one named group, a character
    class and a greedy repetition bounded from below only. *)
Record pattern := {
  group_name : pystr;
  items : list class_item;
  min_repeat : nat
}.

Section Matching.
Variable u : unicode.
Variable p : pattern.

Definition item_matches (c : N) (i : class_item) : bool :=
  match i with
  | Lit d => (c =? d)%N
  | ClsDigit => isdecimal u c
  | ClsSpace => isspace c
  end.

Definition in_class (c : N) : bool := existsb (item_matches c) (items p).

(** The greedy repetition at the head of [s]: how many class characters
    it takes. *)
Fixpoint run_length (s : pystr) : nat :=
  match s with
  | [] => O
  | c :: s' => if in_class c then S (run_length s') else O
  end.

(** [p.finditer(text)], as the list of [m.group(name)]: the scan tries
    a match at each position from the left; after a match it resumes
    where the match ended, after a failure one character further.  A
    pattern with [min_repeat = 0] would also match the empty string;
    the sources have [min_repeat = 3], and the scan below is the one for
    [0 < min_repeat]. *)
Equations? finditer (text : pystr) : list pystr by wf (length text) lt :=
  finditer [] := [];
  finditer (c :: s) with in_class c := {
    | true with (min_repeat p <=? S (run_length s))%nat := {
      | true := (c :: firstn (run_length s) s)
                  :: finditer (skipn (run_length s) s);
      | false := finditer s };
    | false := finditer s }.
Proof.
  rewrite length_skipn. lia.
Qed.

End Matching.

End PyRe.
Import PyRe.

(* ===================================================================== *)
(** * The host interpreter                                                *)
(* ===================================================================== *)

Record host := {
  h_unicode : unicode;
  h_libm : libm;
  (** [ast.parse(src, mode="eval")] *)
  ast_parse : pystr -> result node;
  (** whether [from zoneinfo import ZoneInfo] succeeded *)
  has_zoneinfo : bool;
  (** [datetime.now(ZoneInfo(tz)).strftime(fmt)], the clock being held
      fixed during a turn *)
  now_strftime : pystr -> pystr -> result pystr;
  (** [repr(s)] of a string *)
  repr_str : pystr -> pystr
}.

(** The host [h] with the model parser in place of [ast.parse]. *)
Definition with_py_parse (h : host) : host :=
  {| h_unicode := h_unicode h;
     h_libm := h_libm h;
     ast_parse := py_parse;
     has_zoneinfo := has_zoneinfo h;
     now_strftime := now_strftime h;
     repr_str := repr_str h |}.

(** Dictionaries keep insertion order. *)
Section Dict.
Variables K V : Type.
Variable eqb : K -> K -> bool.

Fixpoint dict_get (d : list (K * V)) (k : K) : option V :=
  match d with
  | [] => None
  | (k', v) :: d' => if eqb k k' then Some v else dict_get d' k
  end.

Definition dict_mem (d : list (K * V)) (k : K) : bool :=
  match dict_get d k with
  | Some _ => true
  | None => false
  end.
End Dict.

(** [any(f(x) for x in xs)]. *)
Definition any {A} (f : A -> bool) (xs : list A) : bool := existsb f xs.

(** [@dataclass class ToolStep]. *)
Record ToolStep := {
  tool : pystr;
  input : pystr;
  tool_result : pystr
}.

(** The two lists [steps] and [parts] that [run_agent] appends to. *)
Record agent_state := {
  steps : list ToolStep;
  parts : list pystr
}.

(* ===================================================================== *)
(** * src/gradio/dashboard.py                                             *)
(* ===================================================================== *)

Module Gradio.

Definition _ALLOWED_OPS : list (op_class * builtin) :=
  [ (BinCls Add, op_add);
    (BinCls Sub, op_sub);
    (BinCls Mult, op_mul);
    (BinCls Div, op_truediv);
    (BinCls FloorDiv, op_floordiv);
    (BinCls Mod, op_mod);
    (BinCls Pow, op_pow);
    (UnCls USub, op_neg);
    (UnCls UAdd, op_pos) ].

Definition CITY_TZ : list (pystr * pystr) :=
  [ (py "johannesburg", py "Africa/Johannesburg");
    (py "cape town", py "Africa/Johannesburg");
    (py "durban", py "Africa/Johannesburg");
    (py "london", py "Europe/London");
    (py "paris", py "Europe/Paris");
    (py "berlin", py "Europe/Berlin");
    (py "new york", py "America/New_York");
    (py "san francisco", py "America/Los_Angeles");
    (py "los angeles", py "America/Los_Angeles");
    (py "tokyo", py "Asia/Tokyo");
    (py "singapore", py "Asia/Singapore");
    (py "sydney", py "Australia/Sydney") ].

Section WithHost.
Variable h : host.

(** [_ALLOWED_OPS[type(node.op)]] applied to the evaluated operands, once
    [type(node.op) in _ALLOWED_OPS] holds. *)
Definition call_allowed (k : op_class) (args : list value) : result value :=
  match dict_get op_class_eqb _ALLOWED_OPS k with
  | Some f => call (h_libm h) f args
  | None => raise OtherException "KeyError"
  end.

(** The inner function [_eval] of [safe_calc]. *)
Fixpoint _eval (n : node) : result value :=
  match n with
  | Expression body => _eval body
  | Constant (CNum v) =>
    if is_int_or_float v then Ok v          (* return node.value *)
    else if is_Num v then Ok v              (* return node.n *)
    else raise ValueError "Unsupported expression."
  | BinOp l o r =>
    if dict_mem op_class_eqb _ALLOWED_OPS (BinCls o) then
      a <- _eval l ;;
      b <- _eval r ;;
      call_allowed (BinCls o) [a; b]
    else raise ValueError "Unsupported expression."
  | UnaryOp o e =>
    if dict_mem op_class_eqb _ALLOWED_OPS (UnCls o) then
      a <- _eval e ;;
      call_allowed (UnCls o) [a]
    else raise ValueError "Unsupported expression."
  | _ => raise ValueError "Unsupported expression."
  end.

(** The pretty formatting
    [if isinstance(val, float) and abs(val - round(val)) < 1e-12:
       val = round(val)]. *)
Definition pretty (val : value) : result value :=
  match val with
  | VFloat x =>
    r <- py_round x ;;
    rf <- to_float r ;;
    if f_ltb (f_abs (f_sub x rf)) f_1e_12
    then r' <- py_round x ;; Ok (VInt r')
    else Ok val
  | _ => Ok val
  end.

(** The [try] block of [safe_calc]. *)
Definition calc_body (expr : pystr) : result pystr :=
  tree <- ast_parse h expr ;;
  val <- _eval tree ;;
  val <- pretty val ;;
  Ok (str_value (h_libm h) val).

Definition safe_calc (expr : pystr) : pystr :=
  let expr := strip expr in
  if (200 <? length expr)%nat then py "Expression too long."
  else try_except (calc_body expr)
                  (fun e => py "Could not evaluate: " ++ exn_str e).

Definition get_time (tz_name : pystr) : pystr :=
  if negb (has_zoneinfo h)
  then py "Timezone support unavailable (need Python 3.9+)."
  else try_except
         (now_strftime h tz_name (py "%Y-%m-%d %H:%M:%S (%Z)"))
         (fun e => py "Could not get time for '" ++ tz_name ++ py "': "
                      ++ exn_str e).

Definition make_plan (goal : pystr) : pystr :=
  let bullets :=
    [ py "Clarify the goal + success criteria (1–2 sentences).";
      py "List the smallest demo-able user flow (3–5 steps).";
      py "Pick 1–2 tools/APIs (or mock them) to support the flow.";
      py "Build the UI skeleton first (inputs, buttons, results).";
      py "Wire the agent loop (decide → tool → observe → answer).";
      py "Add a short 'demo script' and 2–3 example prompts." ] in
  py "Here’s a quick plan:\n"
     ++ join (py "\n") (map (fun b => py "- " ++ b) bullets).

Definition _MATH_RE : pattern :=
  {| group_name := py "expr";
     items := [Lit 45; Lit 43; Lit 42; Lit 47; Lit 40; Lit 41; Lit 46;
               ClsDigit; ClsSpace];
     min_repeat := 3 |}.

(** The [for c in candidates] loop of [extract_math_expression]. *)
Fixpoint first_math (candidates : list pystr) : option pystr :=
  match candidates with
  | [] => None
  | c :: rest =>
    if any (isdigit (h_unicode h)) c
       && any (fun opch => contains [opch] c) (py "+-*/")
    then Some (strip_chars (py " .,:;!?") c)
    else first_math rest
  end.

Definition extract_math_expression (text : pystr) : option pystr :=
  let candidates := map strip (finditer (h_unicode h) _MATH_RE text) in
  first_math candidates.

Definition find_requested_timezones (text default_tz : pystr)
  : list (pystr * pystr) :=
  let lower := lower (h_unicode h) text in
  let hits : list (pystr * pystr) := [] in
  let hits :=
    if contains (py "time") lower || contains (py "date") lower
    then fold_left
           (fun hits '(city, tz) =>
              if contains city lower then hits ++ [(city, tz)] else hits)
           CITY_TZ hits
    else hits in
  let hits :=
    if match hits with [] => true | _ => false end
       && (contains (py "time") lower || contains (py "date") lower)
    then hits ++ [(py "your timezone", default_tz)]
    else hits in
  hits.

(** The truth value of [expr] in [if expr:], for a [str | None]. *)
Definition truthy (expr : option pystr) : bool :=
  match expr with
  | Some (_ :: _) => true
  | _ => false
  end.

Definition help_message : pystr :=
  py "I’m a tiny agent demo. I can use tools like **calculator**, **time lookup**, and a **planner**.\n\n"
  ++ py "Try:\n"
  ++ py "- `What time is it in Tokyo and London?`\n"
  ++ py "- `What is (12*7)/3?`\n"
  ++ py "- `Give me a plan to demo an agentic model in 24 hours`".

(** 1) the [for city, tz in find_requested_timezones(..)] loop *)
Definition time_step (st : agent_state) (hit : pystr * pystr)
  : agent_state :=
  let '(city, tz) := hit in
  let r := get_time tz in
  {| steps := steps st
                ++ [{| tool := py "get_time"; input := tz;
                       tool_result := r |}];
     parts := parts st ++ [py "🕒 **" ++ title city ++ py "**: " ++ r] |}.

(** 2) the calculator *)
Definition calc_step (user_text : pystr) (st : agent_state)
  : agent_state :=
  let expr := extract_math_expression user_text in
  if truthy expr then
    match expr with
    | Some expr =>
      let r := safe_calc expr in
      {| steps := steps st
                    ++ [{| tool := py "calculator"; input := expr;
                           tool_result := r |}];
         parts := parts st
                    ++ [py "🧮 **" ++ expr ++ py "** = `" ++ r ++ py "`"] |}
    | None => st
    end
  else st.

(** 3) the planner *)
Definition plan_step (user_text : pystr) (st : agent_state)
  : agent_state :=
  let lower := lower (h_unicode h) user_text in
  if any (fun k => contains k lower)
         [py "plan"; py "steps"; py "checklist"; py "todo"; py "to-do"]
  then
    let r := make_plan user_text in
    {| steps := steps st
                  ++ [{| tool := py "make_plan"; input := user_text;
                         tool_result := r |}];
       parts := parts st ++ [r] |}
  else st.

(** [if not parts: parts.append(..)] *)
Definition help_step (st : agent_state) : agent_state :=
  match parts st with
  | [] => {| steps := steps st; parts := parts st ++ [help_message] |}
  | _ => st
  end.

Definition run_agent (user_text default_tz : pystr)
  : pystr * list ToolStep :=
  let st := {| steps := []; parts := [] |} in
  let st := fold_left time_step
                      (find_requested_timezones user_text default_tz) st in
  let st := calc_step user_text st in
  let st := plan_step user_text st in
  let st := help_step st in
  (join (py "\n\n") (parts st), steps st).

(** The trace block of one step in [chat_fn]. *)
Definition trace_line (s : ToolStep) : pystr :=
  py "🛠️ **" ++ tool s ++ py "**\n- input: `" ++ input s
     ++ py "`\n- result: `" ++ tool_result s ++ py "`".

(** [chat_fn(message, history, default_tz, show_tool_trace)]; [history]
    is the conversation Gradio passes along, as pairs of texts. *)
Definition chat_fn (message : pystr) (history : list (pystr * pystr))
           (default_tz : pystr) (show_tool_trace : bool) : pystr :=
  let '(reply, steps) := run_agent message default_tz in
  let reply :=
    if show_tool_trace && match steps with [] => false | _ => true end
    then
      let trace_lines := fold_left (fun acc s => acc ++ [trace_line s]) steps []
      in join (py "\n\n") trace_lines ++ py "\n\n---\n\n" ++ reply
    else reply in
  reply.

End WithHost.

End Gradio.

(* ===================================================================== *)
(** * src/streamlit/dashboard.py                                           *)
(* ===================================================================== *)

Module Streamlit.

Definition _ALLOWED_OPS : list (op_class * builtin) :=
  [ (BinCls Add, op_add);
    (BinCls Sub, op_sub);
    (BinCls Mult, op_mul);
    (BinCls Div, op_truediv);
    (BinCls FloorDiv, op_floordiv);
    (BinCls Mod, op_mod);
    (BinCls Pow, op_pow);
    (UnCls USub, op_neg);
    (UnCls UAdd, op_pos) ].

Definition CITY_TZ : list (pystr * pystr) :=
  [ (py "johannesburg", py "Africa/Johannesburg");
    (py "cape town", py "Africa/Johannesburg");
    (py "durban", py "Africa/Johannesburg");
    (py "london", py "Europe/London");
    (py "paris", py "Europe/Paris");
    (py "berlin", py "Europe/Berlin");
    (py "new york", py "America/New_York");
    (py "san francisco", py "America/Los_Angeles");
    (py "los angeles", py "America/Los_Angeles");
    (py "tokyo", py "Asia/Tokyo");
    (py "singapore", py "Asia/Singapore");
    (py "sydney", py "Australia/Sydney") ].

Section WithHost.
Variable h : host.

(** [_ALLOWED_OPS[type(node.op)]] applied to the evaluated operands, once
    [type(node.op) in _ALLOWED_OPS] holds. *)
Definition call_allowed (k : op_class) (args : list value) : result value :=
  match dict_get op_class_eqb _ALLOWED_OPS k with
  | Some f => call (h_libm h) f args
  | None => raise OtherException "KeyError"
  end.

(** The inner function [_eval] of [safe_calc]. *)
Fixpoint _eval (n : node) : result value :=
  match n with
  | Expression body => _eval body
  | Constant (CNum v) =>
    if is_int_or_float v then Ok v          (* return node.value *)
    else if is_Num v then Ok v              (* return node.n *)
    else raise ValueError "Unsupported expression."
  | BinOp l o r =>
    if dict_mem op_class_eqb _ALLOWED_OPS (BinCls o) then
      a <- _eval l ;;
      b <- _eval r ;;
      call_allowed (BinCls o) [a; b]
    else raise ValueError "Unsupported expression."
  | UnaryOp o e =>
    if dict_mem op_class_eqb _ALLOWED_OPS (UnCls o) then
      a <- _eval e ;;
      call_allowed (UnCls o) [a]
    else raise ValueError "Unsupported expression."
  | _ => raise ValueError "Unsupported expression."
  end.

(** The pretty formatting
    [if isinstance(val, float) and abs(val - round(val)) < 1e-12:
       val = round(val)]. *)
Definition pretty (val : value) : result value :=
  match val with
  | VFloat x =>
    r <- py_round x ;;
    rf <- to_float r ;;
    if f_ltb (f_abs (f_sub x rf)) f_1e_12
    then r' <- py_round x ;; Ok (VInt r')
    else Ok val
  | _ => Ok val
  end.

(** The [try] block of [safe_calc]. *)
Definition calc_body (expr : pystr) : result pystr :=
  tree <- ast_parse h expr ;;
  val <- _eval tree ;;
  val <- pretty val ;;
  Ok (str_value (h_libm h) val).

Definition safe_calc (expr : pystr) : pystr :=
  let expr := strip expr in
  if (200 <? length expr)%nat then py "Expression too long."
  else try_except (calc_body expr)
                  (fun e => py "Could not evaluate: " ++ exn_str e).

Definition get_time (tz_name : pystr) : pystr :=
  if negb (has_zoneinfo h)
  then py "Timezone support unavailable (need Python 3.9+)."
  else try_except
         (now_strftime h tz_name (py "%Y-%m-%d %H:%M:%S (%Z)"))
         (fun e => py "Could not get time for '" ++ tz_name ++ py "': "
                      ++ exn_str e).

Definition make_plan (goal : pystr) : pystr :=
  let bullets :=
    [ py "Clarify the goal + success criteria (1‚Äì2 sentences).";
      py "List the smallest demo-able user flow (3‚Äì5 steps).";
      py "Pick 1‚Äì2 tools/APIs (or mock them) to support the flow.";
      py "Build the UI skeleton first (inputs, buttons, results).";
      py "Wire the agent loop (decide ‚Üí tool ‚Üí observe ‚Üí answer).";
      py "Add a short 'demo script' and 2‚Äì3 example prompts." ] in
  py "Here‚Äôs a quick plan:\n"
     ++ join (py "\n") (map (fun b => py "- " ++ b) bullets).

Definition _MATH_RE : pattern :=
  {| group_name := py "expr";
     items := [Lit 45; Lit 43; Lit 42; Lit 47; Lit 40; Lit 41; Lit 46;
               ClsDigit; ClsSpace];
     min_repeat := 3 |}.

(** The [for c in candidates] loop of [extract_math_expression]. *)
Fixpoint first_math (candidates : list pystr) : option pystr :=
  match candidates with
  | [] => None
  | c :: rest =>
    if any (isdigit (h_unicode h)) c
       && any (fun opch => contains [opch] c) (py "+-*/")
    then Some (strip_chars (py " .,:;!?") c)
    else first_math rest
  end.

Definition extract_math_expression (text : pystr) : option pystr :=
  let candidates := map strip (finditer (h_unicode h) _MATH_RE text) in
  first_math candidates.

Definition find_requested_timezones (text default_tz : pystr)
  : list (pystr * pystr) :=
  let lower := lower (h_unicode h) text in
  let hits : list (pystr * pystr) := [] in
  let hits :=
    if contains (py "time") lower || contains (py "date") lower
    then fold_left
           (fun hits '(city, tz) =>
              if contains city lower then hits ++ [(city, tz)] else hits)
           CITY_TZ hits
    else hits in
  let hits :=
    if match hits with [] => true | _ => false end
       && (contains (py "time") lower || contains (py "date") lower)
    then hits ++ [(py "your timezone", default_tz)]
    else hits in
  hits.

(** The truth value of [expr] in [if expr:], for a [str | None]. *)
Definition truthy (expr : option pystr) : bool :=
  match expr with
  | Some (_ :: _) => true
  | _ => false
  end.

Definition help_message : pystr :=
  py "I‚Äôm a tiny agent demo. I can use tools like **calculator**, **time lookup**, and a **planner**.\n\n"
  ++ py "Try:\n"
  ++ py "- `What time is it in Tokyo and London?`\n"
  ++ py "- `What is (12*7)/3?`\n"
  ++ py "- `Give me a plan to demo an agentic model in 24 hours`".

(** 1) the [for city, tz in find_requested_timezones(..)] loop *)
Definition time_step (st : agent_state) (hit : pystr * pystr)
  : agent_state :=
  let '(city, tz) := hit in
  let r := get_time tz in
  let st := {| steps := steps st
                          ++ [{| tool := py "get_time"; input := tz;
                                 tool_result := r |}];
               parts := parts st |} in
  let label := title city in
  {| steps := steps st;
     parts := parts st ++ [py "üïí **" ++ label ++ py "**: " ++ r] |}.

(** 2) the calculator *)
Definition calc_step (user_text : pystr) (st : agent_state)
  : agent_state :=
  let expr := extract_math_expression user_text in
  if truthy expr then
    match expr with
    | Some expr =>
      let r := safe_calc expr in
      {| steps := steps st
                    ++ [{| tool := py "calculator"; input := expr;
                           tool_result := r |}];
         parts := parts st
                    ++ [py "üßÆ **" ++ expr ++ py "** = `" ++ r ++ py "`"] |}
    | None => st
    end
  else st.

(** 3) the planner *)
Definition plan_step (user_text : pystr) (st : agent_state)
  : agent_state :=
  let lower := lower (h_unicode h) user_text in
  if any (fun k => contains k lower)
         [py "plan"; py "steps"; py "checklist"; py "todo"; py "to-do"]
  then
    let r := make_plan user_text in
    {| steps := steps st
                  ++ [{| tool := py "make_plan"; input := user_text;
                         tool_result := r |}];
       parts := parts st ++ [r] |}
  else st.

(** [if not parts: parts.append(..)] *)
Definition help_step (st : agent_state) : agent_state :=
  match parts st with
  | [] => {| steps := steps st; parts := parts st ++ [help_message] |}
  | _ => st
  end.

Definition run_agent (user_text default_tz : pystr)
  : pystr * list ToolStep :=
  let st := {| steps := []; parts := [] |} in
  let st := fold_left time_step
                      (find_requested_timezones user_text default_tz) st in
  let st := calc_step user_text st in
  let st := plan_step user_text st in
  let st := help_step st in
  let final := join (py "\n\n") (parts st) in
  (final, steps st).

End WithHost.

(** ** The page script *)

(** A chat message of [st.session_state.messages]: a [dict] from keys
    to texts, in insertion order. *)
Definition message := list (pystr * pystr).

(** [msg.get(key, default)]. *)
Definition get (msg : message) (key default : pystr) : pystr :=
  match dict_get str_eqb msg key with
  | Some v => v
  | None => default
  end.

(** What the page shows: [st.markdown(body)] and
    [st.code(body, language=..)] inside [with st.chat_message(name)]. *)
Inductive element :=
| markdown (body : pystr)
| code (body language : pystr).

Record chat_message := {
  name : pystr;
  elements : list element
}.

(** The value of [st.session_state.messages] after
    [if "messages" not in st.session_state: ...]; [None] stands for a
    session without the key. *)
Definition initial_messages : list message :=
  [ [ (py "role", py "assistant");
      (py "content", py "Hi! Ask me something and I‚Äôll use tools when helpful. üòä") ] ].

Definition init_messages (session : option (list message)) : list message :=
  match session with
  | None => initial_messages
  | Some messages => messages
  end.

Definition render_message (msg : message) : chat_message :=
  let role := get msg (py "role") (py "assistant") in
  if str_eqb role (py "user") || str_eqb role (py "assistant")
  then {| name := role;
          elements := [markdown (get msg (py "content") [])] |}
  else {| name := py "assistant";
          elements :=
            [ markdown (py "üõ†Ô∏è **Tool:** `" ++ get msg (py "name") (py "tool") ++ py "`");
              code (get msg (py "content") []) (py "text") ] |}.

Section Page.
Variable h : host.

(** The message appended for a step when the tool trace is shown. *)
Definition tool_message (s : ToolStep) : message :=
  [ (py "role", py "tool");
    (py "name", tool s);
    (py "content",
     py "input: " ++ input s ++ py "\nresult: " ++ tool_result s) ].

(** The block [if prompt: ...]: [messages] is
    [st.session_state.messages], [prompt] the value of [st.chat_input],
    [None] when nothing was entered.  The result is the list when
    [st.rerun()] is called, or the list unchanged. *)
Definition on_prompt (messages : list message) (prompt : option pystr)
           (default_tz : pystr) (show_tool_trace : bool) : list message :=
  if truthy prompt then
    match prompt with
    | Some prompt =>
      let messages :=
        messages ++ [[(py "role", py "user"); (py "content", prompt)]] in
      let '(reply, steps) := run_agent h prompt default_tz in
      let messages :=
        if show_tool_trace
        then fold_left (fun ms s => ms ++ [tool_message s]) steps messages
        else messages in
      messages ++ [[(py "role", py "assistant"); (py "content", reply)]]
    | None => messages
    end
  else messages.

End Page.

End Streamlit.

(* ===================================================================== *)
(** * src/crewai/calculator_example/.../tools/custom_tool.py              *)
(* ===================================================================== *)

Module Crewai.

(** ** [int(s)] for a [str], base 10 *)

(** The blanks of the C locale, which [int()] skips around the number. *)
Definition c_isspace (c : N) : bool :=
  ((9 <=? c) && (c <=? 13) || (c =? 32))%N.

Section Int.
Variable u : unicode.

(** CPython first rewrites the text to ASCII: a non-ASCII blank becomes
    a space, a non-ASCII decimal digit its ASCII digit, and the text is
    cut with a question mark at any other non-ASCII character. *)
Fixpoint to_ascii_decimal (s : pystr) : pystr :=
  match s with
  | [] => []
  | c :: s' =>
    if is_ascii c then c :: to_ascii_decimal s'
    else if isspace c then 32%N :: to_ascii_decimal s'
    else if uni_isdecimal u c
         then (48 + uni_decimal_value u c)%N :: to_ascii_decimal s'
         else [63%N]
  end.

(** The digits of the literal, single underscores being allowed between
    digits: the value read, whether the last character read was an
    underscore, and what follows. *)
Fixpoint scan_digits (acc : Z) (prev_underscore : bool) (s : pystr)
  : option (Z * bool * pystr) :=
  match s with
  | c :: s' =>
    if is_ascii_digit c
    then scan_digits (acc * 10 + (Z.of_N c - 48))%Z false s'
    else if (c =? 95)%N
         then if prev_underscore then None
              else scan_digits acc true s'
         else Some (acc, prev_underscore, s)
  | [] => Some (acc, prev_underscore, s)
  end.

Definition parse_int (s : pystr) : option Z :=
  let t := lstrip_by c_isspace (to_ascii_decimal s) in
  let '(neg, t) :=
    match t with
    | c :: t' =>
      if (c =? 43)%N then (false, t')
      else if (c =? 45)%N then (true, t')
      else (false, t)
    | [] => (false, t)
    end in
  match t with
  | c :: _ =>
    if is_ascii_digit c then
      match scan_digits 0%Z false t with
      | Some (z, false, rest) =>
        match lstrip_by c_isspace rest with
        | [] => Some (if neg then (- z)%Z else z)
        | _ => None
        end
      | _ => None
      end
    else None
  | [] => None
  end.
End Int.

Definition py_int (h : host) (s : pystr) : result Z :=
  match parse_int (h_unicode h) s with
  | Some z => Ok z
  | None =>
    Raise (Exn ValueError
               (py "invalid literal for int() with base 10: "
                   ++ repr_str h s))
  end.

(** [class addition_tool(BaseTool)] *)
Module addition_tool.
Definition _run (h : host) (number1 number2 : pystr) : result pystr :=
  a <- py_int h number1 ;;
  b <- py_int h number2 ;;
  let sum_out := (a + b)%Z in
  Ok (str_int sum_out).
End addition_tool.

(** [class multiplication_tool(BaseTool)] *)
Module multiplication_tool.
Definition _run (h : host) (number1 number2 : pystr) : result pystr :=
  a <- py_int h number1 ;;
  b <- py_int h number2 ;;
  let product_out := (a * b)%Z in
  Ok (str_int product_out).
End multiplication_tool.

End Crewai.

(* ===================================================================== *)
(** * Notions used to state the properties                                *)
(* ===================================================================== *)

(** A host for the concrete runs: the model parser, pure-ASCII Unicode
    tables, a clock that answers with the zone it is asked for.  The C
    library functions raise; the runs below never reach them. *)
Definition demo_unicode : unicode :=
  {| uni_lower := fun s => s;
     uni_isdecimal := fun _ => false;
     uni_isdigit := fun _ => false;
     uni_decimal_value := fun _ => 0%N |}.

Definition demo_libm : libm :=
  {| float_pow := fun _ _ => raise OverflowError "math range error";
     float_floordiv := fun _ _ => S754_nan;
     float_rem := fun _ _ => S754_nan;
     complex_call := fun _ _ => raise TypeError "unsupported operand";
     float_repr := fun _ => py "nan";
     complex_repr := fun _ _ => py "nanj" |}.

Definition demo_host : host :=
  {| h_unicode := demo_unicode;
     h_libm := demo_libm;
     ast_parse := py_parse;
     has_zoneinfo := true;
     now_strftime := fun tz _ => Ok (py "2026-01-01 00:00:00 (" ++ tz ++ py ")");
     repr_str := fun s => py "'" ++ s ++ py "'" |}.

(** ** The whitelist of the calculator *)

(** The binary operators [+ - * / // % **]. *)
Definition allowed_binop (o : operator) : bool :=
  match o with
  | Add | Sub | Mult | Div | FloorDiv | Mod | Pow => true
  | _ => false
  end.

(** The unary operators [+ -]. *)
Definition allowed_unop (o : unaryop) : bool :=
  match o with
  | UAdd | USub => true
  | _ => false
  end.

(** The function [_ALLOWED_OPS] holds for a whitelisted operator. *)
Definition builtin_of (o : operator) : builtin :=
  match o with
  | Add => op_add | Sub => op_sub | Mult => op_mul | Div => op_truediv
  | FloorDiv => op_floordiv | Mod => op_mod | _ => op_pow
  end.

(** A numeric literal in the strict sense: the value of the constant is
    an [int], a [float] or a [complex], and not a [bool]. *)
Definition numeric_literal (c : constant) : bool :=
  match c with
  | CNum v => is_Num v
  | _ => false
  end.

(** Some node of the tree, however deep below whitelisted nodes, is
    outside the whitelist: an identifier, a call, a tuple, any other
    node class, another operator, a constant that is not a numeric
    literal. *)
Fixpoint has_foreign (n : node) : bool :=
  match n with
  | Expression body => has_foreign body
  | Constant c => negb (numeric_literal c)
  | BinOp l o r => negb (allowed_binop o) || has_foreign l || has_foreign r
  | UnaryOp o e => negb (allowed_unop o) || has_foreign e
  | _ => true
  end.

(** The same, boolean literals being left aside: a tree has an
    unhandled node when some node is neither a number constant nor one
    of the whitelisted operators. *)
Definition number_constant (c : constant) : bool :=
  match c with
  | CNum _ => true
  | _ => false
  end.

Fixpoint has_unhandled (n : node) : bool :=
  match n with
  | Expression body => has_unhandled body
  | Constant c => negb (number_constant c)
  | BinOp l o r =>
      negb (allowed_binop o) || has_unhandled l || has_unhandled r
  | UnaryOp o e => negb (allowed_unop o) || has_unhandled e
  | _ => true
  end.

Definition is_ok {A} (r : result A) : bool :=
  match r with
  | Ok _ => true
  | Raise _ => false
  end.

(** The message of [raise ValueError("Unsupported expression.")]. *)
Definition unsupported : exn := Exn ValueError (py "Unsupported expression.").

Section Reach.
Variable h : host.

(** The walk of [_eval] arrives at an unhandled node: the operands it
    evaluates before that node all yield a value. *)
Fixpoint reaches_unhandled (n : node) : bool :=
  match n with
  | Expression body => reaches_unhandled body
  | Constant c => negb (number_constant c)
  | BinOp l o r =>
      negb (allowed_binop o)
      || reaches_unhandled l
      || (is_ok (Gradio._eval h l) && reaches_unhandled r)
  | UnaryOp o e => negb (allowed_unop o) || reaches_unhandled e
  | _ => true
  end.
End Reach.

(** ** Direct computation on integers *)

(** The value of an arithmetic tree over integer literals, computed
    directly: [//] rounds toward minus infinity and [%] takes the sign
    of the divisor ([Z.div] and [Z.modulo]); [None] where the value is
    undefined (zero divisor) or not an integer ([/], negative power). *)
Fixpoint direct_int (n : node) : option Z :=
  match n with
  | Expression body => direct_int body
  | Constant (CNum (VInt z)) => Some z
  | UnaryOp UAdd e => direct_int e
  | UnaryOp USub e => option_map Z.opp (direct_int e)
  | BinOp l o r =>
    match direct_int l, direct_int r with
    | Some a, Some b =>
      match o with
      | Add => Some (a + b)%Z
      | Sub => Some (a - b)%Z
      | Mult => Some (a * b)%Z
      | FloorDiv => if (b =? 0)%Z then None else Some (a / b)%Z
      | Mod => if (b =? 0)%Z then None else Some (a mod b)%Z
      | Pow => if (0 <=? b)%Z then Some (a ^ b)%Z else None
      | _ => None
      end
    | _, _ => None
    end
  | _ => None
  end.

(** ** Evaluation contexts *)




(** ** Division by zero *)




(** ** Maximal runs *)

Section Runs.
Variable in_cls : N -> bool.

(** The maximal runs of class characters of [s], from left to right;
    [cur] is the run being read, backwards. *)
Definition flush (cur : pystr) : list pystr :=
  match cur with
  | [] => []
  | _ => [rev cur]
  end.

Fixpoint runs_from (cur : pystr) (s : pystr) : list pystr :=
  match s with
  | [] => flush cur
  | c :: s' =>
    if in_cls c then runs_from (c :: cur) s'
    else flush cur ++ runs_from [] s'
  end.

Definition maximal_runs (s : pystr) : list pystr := runs_from [] s.
End Runs.

(** The text [s] is over or goes on with a character outside the
    class: a greedy repetition of the class stops there. *)
Definition stops (cls : N -> bool) (s : pystr) : Prop :=
  match s with
  | [] => True
  | d :: _ => cls d = false
  end.

(** [r] is a maximal run of class characters of [text]: it is not
    empty, and it lies in [text] between two characters outside the
    class or the ends of the text. *)
Definition is_maximal_run (cls : N -> bool) (text r : pystr) : Prop :=
  r <> [] /\ forallb cls r = true
  /\ exists pre post,
       text = pre ++ r ++ post
       /\ (pre = [] \/ exists pre' d, pre = pre' ++ [d] /\ cls d = false)
       /\ stops cls post.

(** The characters [-+*/().], the decimal digits and the blanks. *)
Definition math_char (u : unicode) (c : N) : bool :=
  char_in c (py "-+*/().") || isdecimal u c || isspace c.

(** A candidate qualifies: it has a digit and one of [+ - * /]. *)
Definition has_digit_and_operator (u : unicode) (c : pystr) : bool :=
  existsb (isdigit u) c && existsb (fun ch => char_in ch (py "+-*/")) c.

(** ** Sections of a reply *)

Section Sections.
Variable h : host.

Definition time_section (hit : pystr * pystr) : pystr :=
  py "🕒 **" ++ title (fst hit) ++ py "**: " ++ Gradio.get_time h (snd hit).

Definition time_record (hit : pystr * pystr) : ToolStep :=
  {| tool := py "get_time"; input := snd hit;
     tool_result := Gradio.get_time h (snd hit) |}.

Definition calc_section (expr : pystr) : pystr :=
  py "🧮 **" ++ expr ++ py "** = `" ++ Gradio.safe_calc h expr ++ py "`".

Definition calc_record (expr : pystr) : ToolStep :=
  {| tool := py "calculator"; input := expr;
     tool_result := Gradio.safe_calc h expr |}.

Definition plan_record (user_text : pystr) : ToolStep :=
  {| tool := py "make_plan"; input := user_text;
     tool_result := Gradio.make_plan user_text |}.

(** Plan intent: a keyword occurs in the lower-cased text. *)
Definition wants_plan (user_text : pystr) : bool :=
  existsb (fun k => contains k (lower (h_unicode h) user_text))
          [py "plan"; py "steps"; py "checklist"; py "todo"; py "to-do"].

(** What each of the three checks contributes, as a function of the
    input alone. *)
Definition time_hits (user_text default_tz : pystr) : list (pystr * pystr) :=
  Gradio.find_requested_timezones h user_text default_tz.

Definition calc_hits (user_text : pystr) : list pystr :=
  match Gradio.extract_math_expression h user_text with
  | Some e => [e]
  | None => []
  end.

Definition plan_hits (user_text : pystr) : list pystr :=
  if wants_plan user_text then [user_text] else [].

(** The section written for a record. *)
Definition renders (s : ToolStep) (part : pystr) : Prop :=
  (tool s = py "get_time"
   /\ exists label, part = py "🕒 **" ++ label ++ py "**: " ++ tool_result s)
  \/ (tool s = py "calculator"
      /\ part = py "🧮 **" ++ input s ++ py "** = `" ++ tool_result s ++ py "`")
  \/ (tool s = py "make_plan" /\ part = tool_result s).

(** The rank of a tool in the pipeline. *)
Definition tool_rank (s : ToolStep) : nat :=
  if str_eqb (tool s) (py "get_time") then 0
  else if str_eqb (tool s) (py "calculator") then 1
  else 2.
End Sections.

(** A section is not empty and is not the help message. *)
Definition proper_section (part : pystr) : Prop :=
  part <> [] /\ part <> Gradio.help_message.

(** ** Substrings *)

(** [sub] occurs in [s] as a contiguous part. *)
Definition substring (sub s : pystr) : Prop :=
  exists pre post, s = pre ++ sub ++ post.

(** The characters [strip(" .,:;!?")] removes. *)
Definition trimmed_char (c : N) : bool := char_in c (py " .,:;!?").

(** One of the characters [+ - * /]. *)
Definition operator_char (c : N) : bool := char_in c (py "+-*/").

(** ** Integer expressions *)

(** A tree made of integer literals, the operators [+ - * // %] and the
    unary signs. *)
Fixpoint int_tree (n : node) : bool :=
  match n with
  | Expression body => int_tree body
  | Constant (CNum (VInt _)) => true
  | BinOp l (Add | Sub | Mult | FloorDiv | Mod) r => int_tree l && int_tree r
  | UnaryOp (UAdd | USub) e => int_tree e
  | _ => false
  end.

(** The ASCII characters of a decimal literal read by [int()]: a blank
    of the C locale, a sign, a digit, an underscore. *)
Definition literal_char (c : N) : bool :=
  Crewai.c_isspace c || (c =? 43)%N || (c =? 45)%N || is_ascii_digit c
  || (c =? 95)%N.

(** A character [int()] can accept: one of the above, or a blank or a
    decimal digit outside ASCII. *)
Definition int_char (u : unicode) (c : N) : bool :=
  literal_char c || negb (is_ascii c) && (isspace c || uni_isdecimal u c).

(** ** The chat page *)

Definition user_message (prompt : pystr) : Streamlit.message :=
  [(py "role", py "user"); (py "content", prompt)].

Definition assistant_message (reply : pystr) : Streamlit.message :=
  [(py "role", py "assistant"); (py "content", reply)].

(** What the page shows for a step of the tool trace. *)
Definition tool_block (s : ToolStep) : Streamlit.chat_message :=
  {| Streamlit.name := py "assistant";
     Streamlit.elements :=
       [ Streamlit.markdown (py "üõ†Ô∏è **Tool:** `" ++ tool s ++ py "`");
         Streamlit.code
           (py "input: " ++ input s ++ py "\nresult: " ++ tool_result s)
           (py "text") ] |}.

(** A message shown as plain text under [role]. *)
Definition text_block (role body : pystr) : Streamlit.chat_message :=
  {| Streamlit.name := role;
     Streamlit.elements := [Streamlit.markdown body] |}.

(** What identifies a tool call: the tool and its input. *)
Definition tool_call (s : ToolStep) : pystr * pystr := (tool s, input s).

Definition is_plan_step (s : ToolStep) : bool :=
  str_eqb (tool s) (py "make_plan").

(** The record of the planner in [src/streamlit/dashboard.py]. *)
Definition streamlit_plan_record (user_text : pystr) : ToolStep :=
  {| tool := py "make_plan"; input := user_text;
     tool_result := Streamlit.make_plan user_text |}.

(** ** Decimal strings *)

(** The characters of a Rocq string, one code point per byte. *)
Definition chars (s : string) : pystr :=
  map N_of_ascii (list_ascii_of_string s).

(** An ASCII character other than the backslash. *)
Definition plain (c : N) : bool := is_ascii c && negb (c =? 92)%N.

(* ===================================================================== *)
(** * The calculator                                                      *)
(* ===================================================================== *)

Section Calculator.
Variable h : host.

Local Abbreviation _eval := (Gradio._eval h).
Local Abbreviation safe_calc := (Gradio.safe_calc h).
Local Abbreviation calc_body := (Gradio.calc_body h).

Lemma allowed_ops_binop (o : operator) :
  dict_mem op_class_eqb Gradio._ALLOWED_OPS (BinCls o) = allowed_binop o.
Proof. destruct o; reflexivity. Qed.

Lemma allowed_ops_unop (o : unaryop) :
  dict_mem op_class_eqb Gradio._ALLOWED_OPS (UnCls o) = allowed_unop o.
Proof. destruct o; reflexivity. Qed.

Lemma eval_binop (l r : node) (o : operator) :
  allowed_binop o = true ->
  _eval (BinOp l o r) =
  (a <- _eval l ;; b <- _eval r ;; binop (h_libm h) (builtin_of o) a b).
Proof.
  intros Ho. cbn [Gradio._eval]. rewrite allowed_ops_binop, Ho.
  destruct (_eval l) as [a|e]; [|reflexivity].
  destruct (_eval r) as [b|e]; [|reflexivity].
  destruct o; try discriminate Ho; reflexivity.
Qed.

Lemma eval_binop_foreign (l r : node) (o : operator) :
  allowed_binop o = false -> _eval (BinOp l o r) = Raise unsupported.
Proof.
  intros Ho. cbn [Gradio._eval]. rewrite allowed_ops_binop, Ho. reflexivity.
Qed.

Lemma eval_unop (e : node) (o : unaryop) :
  allowed_unop o = true ->
  _eval (UnaryOp o e) =
  (a <- _eval e ;;
   unop (h_libm h) (match o with USub => op_neg | _ => op_pos end) a).
Proof.
  intros Ho. cbn [Gradio._eval]. rewrite allowed_ops_unop, Ho.
  destruct (_eval e) as [a|x]; [|reflexivity].
  destruct o; try discriminate Ho; reflexivity.
Qed.

Lemma eval_unop_foreign (e : node) (o : unaryop) :
  allowed_unop o = false -> _eval (UnaryOp o e) = Raise unsupported.
Proof.
  intros Ho. cbn [Gradio._eval]. rewrite allowed_ops_unop, Ho. reflexivity.
Qed.

Lemma eval_number (v : value) : _eval (Constant (CNum v)) = Ok v.
Proof. destruct v; reflexivity. Qed.

(** An unhandled node anywhere makes the walk raise. *)
Lemma eval_unhandled_raises (n : node) :
  has_unhandled n = true -> exists e, _eval n = Raise e.
Proof.
  induction n as [b IH|c|l IHl o r IHr|o e IH| | | |]; cbn [has_unhandled];
    intros H; try (eexists; reflexivity).
  - exact (IH H).
  - destruct c; try discriminate H; eexists; reflexivity.
  - destruct (allowed_binop o) eqn:Ho.
    + rewrite (eval_binop _ _ _ Ho). cbn [negb orb] in H.
      destruct (has_unhandled l) eqn:Hl.
      * destruct (IHl eq_refl) as [e ->]. eexists; reflexivity.
      * destruct (IHr H) as [e He]. destruct (_eval l).
        -- rewrite He. eexists; reflexivity.
        -- eexists; reflexivity.
    + rewrite (eval_binop_foreign _ _ _ Ho). eexists; reflexivity.
  - destruct (allowed_unop o) eqn:Ho.
    + rewrite (eval_unop _ _ Ho). destruct (IH H) as [x ->].
      eexists; reflexivity.
    + rewrite (eval_unop_foreign _ _ Ho). eexists; reflexivity.
Qed.

(** When the walk arrives at an unhandled node, the error is the one of
    [raise ValueError("Unsupported expression.")]. *)
Lemma eval_reaches_unhandled (n : node) :
  reaches_unhandled h n = true -> _eval n = Raise unsupported.
Proof.
  induction n as [b IH|c|l IHl o r IHr|o e IH| | | |];
    cbn [reaches_unhandled]; intros H; try reflexivity.
  - exact (IH H).
  - destruct c; try discriminate H; reflexivity.
  - destruct (allowed_binop o) eqn:Ho.
    + rewrite (eval_binop _ _ _ Ho). cbn [negb orb] in H.
      destruct (reaches_unhandled h l) eqn:Hl.
      * rewrite (IHl eq_refl). reflexivity.
      * cbn [orb] in H. apply andb_true_iff in H as [Hok Hr].
        destruct (_eval l); [|discriminate Hok].
        cbn [bind]. rewrite (IHr Hr). reflexivity.
    + apply eval_binop_foreign, Ho.
  - destruct (allowed_unop o) eqn:Ho.
    + rewrite (eval_unop _ _ Ho), (IH H). reflexivity.
    + apply eval_unop_foreign, Ho.
Qed.


(** The two outcomes of [safe_calc] on a text within the length limit. *)
Lemma safe_calc_within (expr : pystr) :
  (length (strip expr) <= 200)%nat ->
  safe_calc expr =
  try_except (calc_body (strip expr))
             (fun e => py "Could not evaluate: " ++ exn_str e).
Proof.
  intros L. unfold Gradio.safe_calc.
  destruct (Nat.ltb_spec 200 (length (strip expr))); [lia|reflexivity].
Qed.

Lemma safe_calc_eval_raise (expr : pystr) (tree : node) (e : exn) :
  (length (strip expr) <= 200)%nat ->
  ast_parse h (strip expr) = Ok tree ->
  _eval tree = Raise e ->
  calc_body (strip expr) = Raise e
  /\ safe_calc expr = py "Could not evaluate: " ++ exn_str e.
Proof.
  intros L P E.
  assert (B : calc_body (strip expr) = Raise e).
  { unfold Gradio.calc_body. rewrite P. cbn [bind]. rewrite E. reflexivity. }
  split; [exact B|]. rewrite (safe_calc_within _ L), B. reflexivity.
Qed.


(** On integer arithmetic [_eval] is the direct computation. *)
Lemma eval_direct_int (n : node) (z : Z) :
  direct_int n = Some z -> _eval n = Ok (VInt z).
Proof.
  revert z.
  induction n as [b IH|c|l IHl o r IHr|o e IH| | | |]; intros z;
    cbn [direct_int]; try discriminate.
  - apply IH.
  - destruct c as [[x| | |]| | | |]; try discriminate.
    intros [= ->]. reflexivity.
  - destruct (direct_int l) as [a|]; [|discriminate].
    destruct (direct_int r) as [b|]; [|discriminate].
    intros H.
    assert (Ho : allowed_binop o = true) by (destruct o; trivial; discriminate).
    rewrite (eval_binop _ _ _ Ho), (IHl a eq_refl), (IHr b eq_refl).
    cbn [bind binop].
    destruct o; try discriminate H; cbn [builtin_of int_binop].
    + injection H as <-. reflexivity.
    + injection H as <-. reflexivity.
    + injection H as <-. reflexivity.
    + destruct (b =? 0)%Z; [discriminate H|]. injection H as <-. reflexivity.
    + destruct (0 <=? b)%Z; [|discriminate H]. injection H as <-. reflexivity.
    + destruct (b =? 0)%Z; [discriminate H|]. injection H as <-. reflexivity.
  - destruct o; try discriminate.
    + intros H. rewrite (eval_unop _ _ (eq_refl : allowed_unop UAdd = true)).
      rewrite (IH z H). reflexivity.
    + destruct (direct_int e) as [a|]; [|discriminate].
      intros [= <-].
      rewrite (eval_unop _ _ (eq_refl : allowed_unop USub = true)).
      rewrite (IH a eq_refl). reflexivity.
Qed.

(** [safe_calc] on integer arithmetic answers the decimal string of the
    direct computation. *)
Lemma safe_calc_integer_arithmetic (expr : pystr) (tree : node) (z : Z) :
  (length (strip expr) <= 200)%nat ->
  ast_parse h (strip expr) = Ok tree ->
  direct_int tree = Some z ->
  safe_calc expr = str_int z.
Proof.
  intros L P D. rewrite (safe_calc_within _ L). unfold Gradio.calc_body.
  rewrite P. cbn [bind]. rewrite (eval_direct_int _ D). reflexivity.
Qed.

End Calculator.

(** The conventions of [//] and [%] on integers: the quotient is the
    floor of the exact quotient, the remainder has the sign of the
    divisor. *)
Lemma floor_division_convention (a b : Z) :
  b <> 0%Z ->
  (a = b * (a / b) + a mod b
   /\ (0 < b -> 0 <= a mod b < b)
   /\ (b < 0 -> b < a mod b <= 0))%Z.
Proof.
  intros Hb. split; [apply Z.div_mod, Hb|].
  split; intros H; [apply Z.mod_pos_bound|apply Z.mod_neg_bound]; exact H.
Qed.

(** Precedence, associativity and the sign conventions on examples. *)
Lemma safe_calc_precedence (h : host) :
  Gradio.safe_calc (with_py_parse h) (py "2+3*4") = py "14"
  /\ Gradio.safe_calc (with_py_parse h) (py "(2+3)*4") = py "20"
  /\ Gradio.safe_calc (with_py_parse h) (py "-2**2") = py "-4"
  /\ Gradio.safe_calc (with_py_parse h) (py "2**3**2") = py "512"
  /\ Gradio.safe_calc (with_py_parse h) (py "7-2-1") = py "4"
  /\ Gradio.safe_calc (with_py_parse h) (py "-7//2") = py "-4"
  /\ Gradio.safe_calc (with_py_parse h) (py "7%-2") = py "-1"
  /\ Gradio.safe_calc (with_py_parse h) (py "-7%2") = py "1"
  /\ Gradio.safe_calc (with_py_parse h) (py "9/3") = py "3"
  /\ Gradio.safe_calc (with_py_parse h) (py "7/2")
     = float_repr (h_libm h) (float_of_decimal 35 (-1)).
Proof.
  split; [vm_compute; reflexivity|].
  split; [vm_compute; reflexivity|].
  split; [vm_compute; reflexivity|].
  split; [vm_compute; reflexivity|].
  split; [vm_compute; reflexivity|].
  split; [vm_compute; reflexivity|].
  split; [vm_compute; reflexivity|].
  split; [vm_compute; reflexivity|].
  split; vm_compute; reflexivity.
Qed.

(** C1 (as amended).  The evaluator computes with number constants and
    the whitelisted operators only.  When the parsed tree holds a node
    it does not handle (an identifier, a call, a string literal, any
    other operator or node class), at any depth, the evaluation fails:
    [safe_calc] answers "Could not evaluate: ..." with the message of the
    exception raised, never a number.  The message is the one of
    UnsupportedConstruct whenever the walk arrives at such a node, that
    is, unless an operator applied before raised first; [x+1] is
    reported as UnsupportedConstruct. *)
Theorem calc_rejects_unhandled (h : host) :
  (forall (expr : pystr) (tree : node),
      (length (strip expr) <= 200)%nat ->
      ast_parse h (strip expr) = Ok tree ->
      has_unhandled tree = true ->
      exists e,
        Gradio._eval h tree = Raise e
        /\ Gradio.calc_body h (strip expr) = Raise e
        /\ Gradio.safe_calc h expr = py "Could not evaluate: " ++ exn_str e
        /\ (reaches_unhandled h tree = true -> e = unsupported))
  /\ (forall (tree : node) (v : value),
         Gradio._eval h tree = Ok v -> has_unhandled tree = false)
  /\ Gradio.safe_calc (with_py_parse h) (py "x+1")
     = py "Could not evaluate: Unsupported expression.".
Proof.
  split; [|split].
  - intros expr tree L P U.
    destruct (eval_unhandled_raises h tree U) as [e E].
    exists e. destruct (safe_calc_eval_raise h expr L P E) as [B S].
    repeat split; trivial.
    intros R. rewrite (eval_reaches_unhandled h tree R) in E. congruence.
  - intros tree v E. destruct (has_unhandled tree) eqn:U; [|reflexivity].
    destruct (eval_unhandled_raises h tree U) as [e E']. congruence.
  - vm_compute. reflexivity.
Qed.

Lemma calc_rejects_unhandled_witness :
  Gradio.safe_calc demo_host (py "2*(x+1)")
  = py "Could not evaluate: " ++ exn_str unsupported.
Proof.
  destruct (proj1 (calc_rejects_unhandled demo_host) (py "2*(x+1)")
              (Expression
                 (BinOp (Constant (CNum (VInt 2))) Mult
                        (BinOp (Name (py "x")) Add
                               (Constant (CNum (VInt 1)))))))
    as [e [_ [_ [S R]]]].
  - vm_compute. lia.
  - vm_compute. reflexivity.
  - vm_compute. reflexivity.
  - rewrite S, R; [reflexivity|]. vm_compute. reflexivity.
Defined.

(** C1, as stated, fails: the tree of [1/0+x] holds the identifier [x],
    and the answer is the division error, not UnsupportedConstruct. *)
Lemma calc_unsupported_counterexample :
  ast_parse demo_host (strip (py "1/0+x"))
  = Ok (Expression (BinOp (BinOp (Constant (CNum (VInt 1))) Div
                                 (Constant (CNum (VInt 0))))
                          Add (Name (py "x"))))
  /\ has_foreign
       (Expression (BinOp (BinOp (Constant (CNum (VInt 1))) Div
                                 (Constant (CNum (VInt 0))))
                          Add (Name (py "x")))) = true
  /\ Gradio.safe_calc demo_host (py "1/0+x")
     = py "Could not evaluate: division by zero"
  /\ Gradio.safe_calc demo_host (py "1/0+x")
     <> py "Could not evaluate: Unsupported expression.".
Proof.
  split; [vm_compute; reflexivity|].
  split; [vm_compute; reflexivity|].
  split; [vm_compute; reflexivity|].
  vm_compute. discriminate.
Qed.

(** A boolean literal is computed with: [isinstance(True, int)] holds. *)
Lemma calc_accepts_bool_literal (h : host) :
  ast_parse (with_py_parse h) (strip (py "True+1"))
  = Ok (Expression (BinOp (Constant (CNum (VBool true))) Add
                          (Constant (CNum (VInt 1)))))
  /\ Gradio.safe_calc (with_py_parse h) (py "True+1") = py "2".
Proof. split; vm_compute; reflexivity. Qed.



Lemma lstrip_by_length (drop : N -> bool) (s : pystr) :
  (length (lstrip_by drop s) <= length s)%nat.
Proof.
  induction s as [|c s IH]; cbn [lstrip_by length]; [lia|].
  destruct (drop c); cbn [length]; lia.
Qed.

Lemma strip_length (s : pystr) : (length (strip s) <= length s)%nat.
Proof.
  unfold strip, strip_by. rewrite length_rev.
  pose proof (lstrip_by_length isspace (rev (lstrip_by isspace s))) as A.
  pose proof (lstrip_by_length isspace s) as B.
  rewrite length_rev in A. lia.
Qed.

(** C8 (as amended).  The length that is checked is the one of the
    text with its leading and trailing blanks removed.  When it exceeds
    200, [safe_calc] answers "Expression too long." whatever the parser
    would say: nothing is parsed or evaluated.  When it is at most 200
    the text is not rejected for its length: the answer is the outcome
    of parsing and evaluating it, an exception of the parser included;
    this is the case of every text of at most 200 characters. *)
Theorem safe_calc_length_guard (h : host) (expr : pystr) :
  ((200 < length (strip expr))%nat ->
   Gradio.safe_calc h expr = py "Expression too long."
   /\ forall h' : host, Gradio.safe_calc h' expr = Gradio.safe_calc h expr)
  /\ ((length (strip expr) <= 200)%nat ->
      Gradio.safe_calc h expr
      = try_except (Gradio.calc_body h (strip expr))
                   (fun e => py "Could not evaluate: " ++ exn_str e)
      /\ forall e, ast_parse h (strip expr) = Raise e ->
                   Gradio.safe_calc h expr
                   = py "Could not evaluate: " ++ exn_str e)
  /\ ((length expr <= 200)%nat -> (length (strip expr) <= 200)%nat).
Proof.
  split; [|split; [|pose proof (strip_length expr); lia]]; intros L.
  - assert (T : forall k : host,
               Gradio.safe_calc k expr = py "Expression too long.").
    { intros k. unfold Gradio.safe_calc.
      destruct (Nat.ltb_spec 200 (length (strip expr))); [reflexivity|lia]. }
    split; [apply T|]. intros h'. rewrite (T h'), (T h). reflexivity.
  - rewrite (safe_calc_within h expr L). split; [reflexivity|].
    intros e P. unfold Gradio.calc_body. rewrite P. reflexivity.
Qed.

Lemma safe_calc_length_guard_witness :
  Gradio.safe_calc demo_host (repeat 49%N 201) = py "Expression too long."
  /\ Gradio.safe_calc demo_host (py " 1+ ")
     = py "Could not evaluate: "
          ++ exn_str (Exn SyntaxError (py "invalid syntax (<unknown>, line 1)")).
Proof.
  split.
  - apply (proj1 (safe_calc_length_guard demo_host (repeat 49%N 201))).
    vm_compute. lia.
  - destruct (proj1 (proj2 (safe_calc_length_guard demo_host (py " 1+ "))))
      as [_ H].
    + vm_compute. lia.
    + apply (H (Exn SyntaxError (py "invalid syntax (<unknown>, line 1)"))).
      vm_compute. reflexivity.
Defined.

(** C8, as stated, fails: a text of 201 characters, 198 spaces and
    [1+1], is not answered with "Expression too long." but evaluated. *)
Lemma safe_calc_too_long_counterexample :
  length (repeat 32%N 198 ++ py "1+1") = 201%nat
  /\ Gradio.safe_calc demo_host (repeat 32%N 198 ++ py "1+1") = py "2"
  /\ Gradio.safe_calc demo_host (repeat 32%N 198 ++ py "1+1")
     <> py "Expression too long.".
Proof.
  split; [vm_compute; reflexivity|].
  split; [vm_compute; reflexivity|].
  vm_compute. discriminate.
Qed.

(** C2: the code at the failing input.  [10**308*10.0] is within the
    grammar; computed directly it is the float infinity, which [_eval]
    does return; the pretty formatting then calls [round] on it, and the
    answer is the message of the [OverflowError] instead of the number.
    The literal [1e999] fares the same. *)
Theorem safe_calc_infinite_result (h : host) :
  ast_parse (with_py_parse h) (py "10**308*10.0")
  = Ok (Expression
          (BinOp (BinOp (Constant (CNum (VInt 10))) Pow
                        (Constant (CNum (VInt 308))))
                 Mult
                 (Constant (CNum (VFloat (float_of_decimal 100 (-1)))))))
  /\ Gradio._eval (with_py_parse h)
       (Expression
          (BinOp (BinOp (Constant (CNum (VInt 10))) Pow
                        (Constant (CNum (VInt 308))))
                 Mult
                 (Constant (CNum (VFloat (float_of_decimal 100 (-1)))))))
     = Ok (VFloat (S754_infinity false))
  /\ Gradio.safe_calc (with_py_parse h) (py "10**308*10.0")
     = py "Could not evaluate: cannot convert float infinity to integer"
  /\ Gradio.safe_calc (with_py_parse h) (py "1e999")
     = py "Could not evaluate: cannot convert float infinity to integer".
Proof.
  split; [vm_compute; reflexivity|].
  split; [vm_compute; reflexivity|].
  split; vm_compute; reflexivity.
Qed.

(* ===================================================================== *)
(** * The extraction heuristics                                           *)
(* ===================================================================== *)

Section Scan.
Variable u : unicode.
Variable p : pattern.

Local Abbreviation cls := (in_class u p).

Lemma finditer_cons (c : N) (s : pystr) :
  finditer u p (c :: s) =
  if cls c then
    if (min_repeat p <=? S (run_length u p s))%nat
    then (c :: firstn (run_length u p s) s)
           :: finditer u p (skipn (run_length u p s) s)
    else finditer u p s
  else finditer u p s.
Proof.
  simp finditer. destruct (cls c); simpl; [|reflexivity].
  destruct (min_repeat p <=? S (run_length u p s))%nat; reflexivity.
Qed.

Lemma run_length_split (s : pystr) :
  forallb cls (firstn (run_length u p s) s) = true
  /\ length (firstn (run_length u p s) s) = run_length u p s
  /\ stops cls (skipn (run_length u p s) s).
Proof.
  induction s as [|c s IH]; cbn [run_length].
  - repeat split.
  - destruct (cls c) eqn:Hc; cbn [firstn skipn forallb length stops].
    + destruct IH as (A & B & C). rewrite Hc, A, B. repeat split. exact C.
    + repeat split. exact Hc.
Qed.

Lemma run_length_app (q rest : pystr) :
  forallb cls q = true -> stops cls rest ->
  run_length u p (q ++ rest) = length q.
Proof.
  intros Hq Hr. induction q as [|c q IH]; cbn [app run_length length].
  - destruct rest as [|d rest]; [reflexivity|]. cbn in Hr.
    cbn [run_length]. rewrite Hr. reflexivity.
  - cbn [forallb] in Hq. apply andb_true_iff in Hq as [Hc Hq].
    rewrite Hc, (IH Hq). reflexivity.
Qed.

(** A run too short for the pattern is skipped as a whole. *)
Lemma finditer_short_run (q rest : pystr) :
  forallb cls q = true -> stops cls rest ->
  (length q < min_repeat p)%nat ->
  finditer u p (q ++ rest) = finditer u p rest.
Proof.
  intros Hq Hr. induction q as [|c q IH]; cbn [app length]; intros L.
  - reflexivity.
  - cbn [forallb] in Hq. apply andb_true_iff in Hq as [Hc Hq].
    rewrite finditer_cons, Hc, (run_length_app _ _ Hq Hr).
    destruct (Nat.leb_spec (min_repeat p) (S (length q))); [lia|].
    apply IH; [exact Hq|lia].
Qed.

Lemma runs_from_run (q cur rest : pystr) :
  forallb cls q = true ->
  runs_from cls cur (q ++ rest) = runs_from cls (rev q ++ cur) rest.
Proof.
  revert cur. induction q as [|c q IH]; intros cur Hq; cbn [app rev].
  - reflexivity.
  - cbn [forallb] in Hq. apply andb_true_iff in Hq as [Hc Hq].
    cbn [runs_from]. rewrite Hc, (IH _ Hq), <- app_assoc. reflexivity.
Qed.

(** After a run [c :: q], the maximal runs are that run and those of
    what follows the character that stopped it. *)
Lemma maximal_runs_run (c : N) (q rest : pystr) :
  cls c = true -> forallb cls q = true -> stops cls rest ->
  maximal_runs cls ((c :: q) ++ rest)
  = (c :: q) :: maximal_runs cls (tl rest)
  /\ finditer u p rest = finditer u p (tl rest).
Proof.
  intros Hc Hq Hr. unfold maximal_runs.
  rewrite runs_from_run by (cbn [forallb]; rewrite Hc, Hq; reflexivity).
  rewrite app_nil_r.
  assert (F : flush (rev (c :: q)) = [c :: q]).
  { unfold flush. rewrite rev_involutive.
    destruct (rev (c :: q)) eqn:E; [|reflexivity].
    apply (f_equal (@length N)) in E. rewrite length_rev in E. discriminate. }
  destruct rest as [|d rest]; cbn [runs_from tl].
  - rewrite F. split; reflexivity.
  - cbn in Hr. rewrite Hr, F. split; [reflexivity|].
    rewrite finditer_cons, Hr. reflexivity.
Qed.

(** [finditer] yields the maximal runs of class characters that are
    long enough, from left to right. *)
Lemma finditer_maximal_runs (text : pystr) :
  finditer u p text
  = filter (fun r => (min_repeat p <=? length r)%nat)
           (maximal_runs cls text).
Proof.
  remember (length text) as n eqn:Hn.
  revert text Hn. induction n as [n IH] using lt_wf_ind. intros text Hn.
  destruct text as [|c s]; [reflexivity|].
  rewrite finditer_cons. destruct (cls c) eqn:Hc.
  - destruct (run_length_split s) as (A & B & C).
    set (k := run_length u p s) in *.
    assert (E : c :: s = (c :: firstn k s) ++ skipn k s).
    { cbn [app]. rewrite firstn_skipn. reflexivity. }
    destruct (maximal_runs_run c (firstn k s) (skipn k s) Hc A C) as [M F].
    rewrite E, M. cbn [filter length]. rewrite B.
    assert (L : (length (tl (skipn k s)) < n)%nat).
    { subst n. cbn [length].
      pose proof (length_skipn k s) as Ls.
      destruct (skipn k s); cbn [tl length] in *; lia. }
    destruct (Nat.leb_spec (min_repeat p) (S k)).
    + rewrite F, (IH _ L _ eq_refl). reflexivity.
    + rewrite <- (firstn_skipn k s) at 1.
      rewrite (finditer_short_run _ _ A C) by lia.
      rewrite F, (IH _ L _ eq_refl). reflexivity.
  - unfold maximal_runs. cbn [runs_from]. rewrite Hc. cbn [flush app].
    apply (IH (length s)); [subst n; cbn; lia|reflexivity].
Qed.

End Scan.

Section RunsFacts.
Variable cls : N -> bool.

Lemma runs_from_sound (s cur r : pystr) :
  forallb cls cur = true ->
  In r (runs_from cls cur s) ->
  is_maximal_run cls (rev cur ++ s) r.
Proof.
  revert cur. induction s as [|c s IH]; intros cur Hcur Hin.
  - cbn [runs_from] in Hin. unfold flush in Hin.
    destruct cur as [|x cur]; [contradiction|].
    destruct Hin as [<-|[]]. rewrite app_nil_r. split; [|split].
    + intros E. apply (f_equal (@length N)) in E.
      rewrite length_rev in E. discriminate.
    + rewrite forallb_forall in *. intros y Hy. apply Hcur.
      apply in_rev. exact Hy.
    + exists [], []. rewrite app_nil_r. repeat split. left; reflexivity.
  - cbn [runs_from] in Hin. destruct (cls c) eqn:Hc.
    + replace (rev cur ++ c :: s) with (rev (c :: cur) ++ s)
        by (cbn [rev]; rewrite <- app_assoc; reflexivity).
      apply IH; [|exact Hin]. cbn [forallb]. rewrite Hc, Hcur. reflexivity.
    + apply in_app_or in Hin as [Hin|Hin].
      * unfold flush in Hin. destruct cur as [|x cur]; [contradiction|].
        destruct Hin as [<-|[]]. split; [|split].
        -- intros E. apply (f_equal (@length N)) in E.
           rewrite length_rev in E. discriminate.
        -- rewrite forallb_forall in *. intros y Hy. apply Hcur.
           apply in_rev. exact Hy.
        -- exists [], (c :: s). repeat split; [left; reflexivity|exact Hc].
      * destruct (IH [] eq_refl Hin) as (Hne & Hall & pre & post & E & Hpre & Hpost).
        cbn [rev app] in E. split; [exact Hne|]. split; [exact Hall|].
        exists (rev cur ++ c :: pre), post. split; [|split].
        -- rewrite E, <- app_assoc. reflexivity.
        -- right. destruct Hpre as [->|(pre' & d & -> & Hd)].
           ++ exists (rev cur), c. split; [reflexivity|exact Hc].
           ++ exists (rev cur ++ c :: pre'), d. split; [|exact Hd].
              rewrite <- app_assoc. reflexivity.
        -- exact Hpost.
Qed.

Lemma maximal_runs_sound (s r : pystr) :
  In r (maximal_runs cls s) -> is_maximal_run cls s r.
Proof. intros H. exact (runs_from_sound s [] r eq_refl H). Qed.

Lemma runs_from_ext (cls' : N -> bool) (s cur : pystr) :
  (forall c, cls c = cls' c) -> runs_from cls cur s = runs_from cls' cur s.
Proof.
  intros E. revert cur. induction s as [|c s IH]; intros cur; cbn [runs_from].
  - reflexivity.
  - rewrite <- E. destruct (cls c); rewrite ?IH; reflexivity.
Qed.

End RunsFacts.

Section Extraction.
Variable h : host.

Local Abbreviation u := (h_unicode h).

Lemma math_re_class (c : N) : in_class u Gradio._MATH_RE c = math_char u c.
Proof.
  unfold in_class, math_char, char_in.
  replace (py "-+*/().") with [45; 43; 42; 47; 40; 41; 46]%N
    by (vm_compute; reflexivity).
  cbn -[isdecimal isspace N.eqb].
  rewrite !orb_false_r, <- !orb_assoc. reflexivity.
Qed.

Lemma contains_char (x : N) (s : pystr) :
  contains [x] s = existsb (N.eqb x) s.
Proof.
  induction s as [|y s IH]; cbn [contains startswith existsb].
  - reflexivity.
  - rewrite IH, andb_true_r. reflexivity.
Qed.

Lemma existsb_swap (A B : Type) (f : A -> B -> bool)
      (xs : list A) (ys : list B) :
  existsb (fun x => existsb (f x) ys) xs
  = existsb (fun y => existsb (fun x => f x y) xs) ys.
Proof.
  induction xs as [|x xs IH]; cbn [existsb].
  - induction ys as [|y ys IHy]; [reflexivity|exact IHy].
  - rewrite IH. clear IH. induction ys as [|y ys IHy]; cbn [existsb].
    + reflexivity.
    + rewrite <- IHy.
      destruct (f x y), (existsb (f x) ys),
        (existsb (fun x0 => f x0 y) xs); reflexivity.
Qed.

Lemma existsb_pointwise (A : Type) (f g : A -> bool) (l : list A) :
  (forall x, f x = g x) -> existsb f l = existsb g l.
Proof.
  intros E. induction l as [|x l IH]; cbn [existsb]; [reflexivity|].
  rewrite E, IH. reflexivity.
Qed.

Lemma qualifies (c : pystr) :
  any (isdigit u) c && any (fun opch => contains [opch] c) (py "+-*/")
  = has_digit_and_operator u c.
Proof.
  unfold has_digit_and_operator, any. f_equal.
  rewrite (existsb_pointwise _ (fun opch => existsb (N.eqb opch) c))
    by (intros; apply contains_char).
  rewrite existsb_swap. apply existsb_pointwise. intros ch.
  unfold char_in. apply existsb_pointwise. intros x. apply N.eqb_sym.
Qed.

Lemma first_math_find (candidates : list pystr) :
  Gradio.first_math h candidates
  = option_map (strip_chars (py " .,:;!?"))
               (find (has_digit_and_operator u) candidates).
Proof.
  induction candidates as [|c cs IH]; cbn [Gradio.first_math find].
  - reflexivity.
  - rewrite qualifies. destruct (has_digit_and_operator u c);
      [reflexivity|exact IH].
Qed.

End Extraction.



(** [find_requested_timezones] appends the matching cities in the order
    of the table. *)
Lemma city_loop (lower : pystr) (table acc : list (pystr * pystr)) :
  fold_left
    (fun hits '(city, tz) =>
       if contains city lower then hits ++ [(city, tz)] else hits)
    table acc
  = acc ++ filter (fun hit => contains (fst hit) lower) table.
Proof.
  revert acc. induction table as [|[city tz] table IH]; intros acc;
    cbn [fold_left filter fst].
  - rewrite app_nil_r. reflexivity.
  - rewrite IH. destruct (contains city lower); [|reflexivity].
    rewrite <- app_assoc. reflexivity.
Qed.

(** C3.  [find_requested_timezones] lower-cases the text.  With "time"
    or "date" in it, it returns one request per city of [CITY_TZ] that
    occurs in it, in the order of the table, or, when no city occurs,
    the single request ("your timezone", default zone); without the
    keyword it returns nothing.  On "What time is it in Tokyo and
    London?" it returns London's and Tokyo's zones, in table order. *)
Theorem find_requested_timezones_spec (h : host) :
  (forall text default_tz : pystr,
      let lower := lower (h_unicode h) text in
      let matched :=
        filter (fun hit => contains (fst hit) lower) Gradio.CITY_TZ in
      Gradio.find_requested_timezones h text default_tz
      = if contains (py "time") lower || contains (py "date") lower
        then match matched with
             | [] => [(py "your timezone", default_tz)]
             | _ => matched
             end
        else [])
  /\ Gradio.find_requested_timezones
       h (py "What time is it in Tokyo and London?") (py "UTC")
     = [ (py "london", py "Europe/London"); (py "tokyo", py "Asia/Tokyo") ].
Proof.
  split.
  - intros text default_tz lower matched.
    unfold Gradio.find_requested_timezones. fold lower.
    destruct (contains (py "time") lower || contains (py "date") lower).
    + rewrite city_loop. cbn [app]. fold matched.
      destruct matched; [reflexivity|]. cbn [andb]. reflexivity.
    + reflexivity.
  - vm_compute. reflexivity.
Qed.

(* ===================================================================== *)
(** * The dispatcher                                                      *)
(* ===================================================================== *)

Section Dispatcher.
Variable h : host.

Local Abbreviation u := (h_unicode h).

Lemma lstrip_by_keeps (drop : N -> bool) (x : N) (s : pystr) :
  In x s -> drop x = false -> In x (lstrip_by drop s).
Proof.
  intros Hin Hx. induction s as [|c s IH]; [contradiction|].
  cbn [lstrip_by]. destruct (drop c) eqn:Hc; [|exact Hin].
  destruct Hin as [->|Hin]; [congruence|exact (IH Hin)].
Qed.

Lemma strip_by_keeps (drop : N -> bool) (x : N) (s : pystr) :
  In x s -> drop x = false -> In x (strip_by drop s).
Proof.
  intros Hin Hx. unfold strip_by. apply -> in_rev.
  apply lstrip_by_keeps; [|exact Hx]. apply -> in_rev.
  apply lstrip_by_keeps; assumption.
Qed.

Lemma digit_not_trimmed (d : N) :
  isdigit u d = true -> char_in d (py " .,:;!?") = false.
Proof.
  intros Hd. destruct (char_in d (py " .,:;!?")) eqn:E; [|reflexivity].
  unfold char_in in E. apply existsb_exists in E as (x & Hx & Hdx).
  apply N.eqb_eq in Hdx. subst x. vm_compute in Hx.
  repeat (destruct Hx as [<-|Hx]; [discriminate Hd|]). contradiction.
Qed.

(** A candidate is never the empty string, so [if expr:] is the test
    [expr is not None]. *)
Lemma extract_truthy (text : pystr) :
  Gradio.truthy (Gradio.extract_math_expression h text)
  = match Gradio.extract_math_expression h text with
    | Some _ => true
    | None => false
    end.
Proof.
  unfold Gradio.extract_math_expression. rewrite first_math_find.
  destruct (find _ _) as [c|] eqn:F; [|reflexivity]. cbn [option_map].
  apply find_some in F as [_ Q]. unfold has_digit_and_operator in Q.
  apply andb_true_iff in Q as [Q _]. apply existsb_exists in Q as (d & Hin & Hd).
  pose proof (strip_by_keeps (fun c => char_in c (py " .,:;!?")) d c Hin
                             (digit_not_trimmed d Hd)) as K.
  unfold strip_chars. destruct (strip_by _ c); [contradiction|reflexivity].
Qed.

Lemma time_loop (hits : list (pystr * pystr)) (st : agent_state) :
  fold_left (Gradio.time_step h) hits st
  = {| steps := steps st ++ map (time_record h) hits;
       parts := parts st ++ map (time_section h) hits |}.
Proof.
  revert st. induction hits as [|[city tz] hits IH]; intros st;
    cbn [fold_left map].
  - rewrite !app_nil_r. destruct st; reflexivity.
  - rewrite IH. cbn [Gradio.time_step steps parts].
    rewrite <- !app_assoc. reflexivity.
Qed.

Lemma calc_step_hits (text : pystr) (st : agent_state) :
  Gradio.calc_step h text st
  = {| steps := steps st ++ map (calc_record h) (calc_hits h text);
       parts := parts st ++ map (calc_section h) (calc_hits h text) |}.
Proof.
  unfold Gradio.calc_step, calc_hits. rewrite extract_truthy.
  destruct (Gradio.extract_math_expression h text); cbn [map].
  - reflexivity.
  - rewrite !app_nil_r. destruct st; reflexivity.
Qed.

Lemma plan_step_hits (text : pystr) (st : agent_state) :
  Gradio.plan_step h text st
  = {| steps := steps st ++ map plan_record (plan_hits h text);
       parts := parts st ++ map Gradio.make_plan (plan_hits h text) |}.
Proof.
  unfold Gradio.plan_step, plan_hits, wants_plan, any.
  destruct (existsb _ _); cbn [map].
  - reflexivity.
  - rewrite !app_nil_r. destruct st; reflexivity.
Qed.

(** The reply, section by section. *)
Lemma run_agent_sections (text default_tz : pystr) :
  let sections :=
    map (time_section h) (time_hits h text default_tz)
    ++ map (calc_section h) (calc_hits h text)
    ++ map Gradio.make_plan (plan_hits h text) in
  Gradio.run_agent h text default_tz
  = (join (py "\n\n")
          match sections with
          | [] => [Gradio.help_message]
          | _ => sections
          end,
     map (time_record h) (time_hits h text default_tz)
     ++ map (calc_record h) (calc_hits h text)
     ++ map plan_record (plan_hits h text)).
Proof.
  intros sections. subst sections. unfold Gradio.run_agent.
  rewrite time_loop, calc_step_hits, plan_step_hits.
  cbn [steps parts app]. rewrite <- !app_assoc.
  change (Gradio.find_requested_timezones h text default_tz)
    with (time_hits h text default_tz).
  unfold Gradio.help_step. cbn [steps parts].
  destruct (map (time_section h) (time_hits h text default_tz)
            ++ map (calc_section h) (calc_hits h text)
            ++ map Gradio.make_plan (plan_hits h text)); reflexivity.
Qed.

Lemma join_nonempty (sep p : pystr) (rest : list pystr) :
  p <> [] -> join sep (p :: rest) <> [].
Proof.
  intros Hp. destruct rest; cbn [join]; [exact Hp|].
  destruct p; [contradiction|discriminate].
Qed.

End Dispatcher.

Section Replies.
Variable h : host.

Lemma Forall2_map_both (A B C : Type) (R : B -> C -> Prop)
      (f : A -> B) (g : A -> C) (l : list A) :
  (forall x, R (f x) (g x)) -> Forall2 R (map f l) (map g l).
Proof.
  intros H. induction l as [|x l IH]; cbn [map]; constructor; auto.
Qed.

Lemma Forall_map_all (A B : Type) (Q : B -> Prop) (f : A -> B) (l : list A) :
  (forall x, Q (f x)) -> Forall Q (map f l).
Proof.
  intros H. induction l as [|x l IH]; cbn [map]; constructor; auto.
Qed.

Lemma map_constant (A B : Type) (f : A -> B) (k : B) (l : list A) :
  (forall x, f x = k) -> map f l = repeat k (length l).
Proof.
  intros H. induction l as [|x l IH]; cbn [map repeat length];
    [reflexivity|]. rewrite H, IH. reflexivity.
Qed.

Lemma time_section_proper (hit : pystr * pystr) :
  proper_section (time_section h hit).
Proof.
  split; intros E; apply (f_equal (hd 0%N)) in E;
    unfold time_section in E; vm_compute in E; discriminate E.
Qed.

Lemma calc_section_proper (expr : pystr) : proper_section (calc_section h expr).
Proof.
  split; intros E; apply (f_equal (hd 0%N)) in E;
    unfold calc_section in E; vm_compute in E; discriminate E.
Qed.

Lemma make_plan_proper (goal : pystr) : proper_section (Gradio.make_plan goal).
Proof.
  split; intros E; apply (f_equal (hd 0%N)) in E;
    vm_compute in E; discriminate E.
Qed.

Lemma sections_proper (text default_tz : pystr) :
  Forall proper_section
         (map (time_section h) (time_hits h text default_tz)
          ++ map (calc_section h) (calc_hits h text)
          ++ map Gradio.make_plan (plan_hits h text)).
Proof.
  repeat (apply Forall_app; split); apply Forall_map_all.
  - apply time_section_proper.
  - apply calc_section_proper.
  - apply make_plan_proper.
Qed.

End Replies.

(** C5.  The reply of [run_agent] is made of the sections of the
    timezone requests, then the section of the arithmetic candidate,
    then the plan, joined by blank lines; the recorded steps are in the
    same order and each section is the rendering of the step at the
    same place.  Each of the three checks is a function of the input
    alone: none depends on the outcome of another. *)
Theorem run_agent_pipeline_order (h : host) (text default_tz : pystr) :
  let T := time_hits h text default_tz in
  let C := calc_hits h text in
  let P := plan_hits h text in
  let sections :=
    map (time_section h) T ++ map (calc_section h) C
    ++ map Gradio.make_plan P in
  let records :=
    map (time_record h) T ++ map (calc_record h) C ++ map plan_record P in
  snd (Gradio.run_agent h text default_tz) = records
  /\ fst (Gradio.run_agent h text default_tz)
     = join (py "\n\n")
            match sections with
            | [] => [Gradio.help_message]
            | _ => sections
            end
  /\ Forall2 renders records sections
  /\ map tool_rank records
     = repeat 0%nat (length T) ++ repeat 1%nat (length C)
       ++ repeat 2%nat (length P)
  /\ (length C <= 1)%nat /\ (length P <= 1)%nat.
Proof.
  intros T C P sections records.
  pose proof (run_agent_sections h text default_tz) as R. cbn zeta in R.
  fold T C P in R. fold sections records in R. rewrite R. cbn [fst snd].
  split; [reflexivity|]. split; [reflexivity|]. split; [|split; [|split]].
  - unfold records, sections.
    repeat apply Forall2_app; apply Forall2_map_both; intros x;
      unfold renders, time_record, time_section, calc_record, calc_section,
        plan_record; cbn [tool input tool_result].
    + left. split; [reflexivity|]. exists (title (fst x)). reflexivity.
    + right; left. split; reflexivity.
    + right; right. split; reflexivity.
  - unfold records. rewrite !map_app, !map_map.
    rewrite (map_constant (k := 0%nat) _ T),
      (map_constant (k := 1%nat) _ C),
      (map_constant (k := 2%nat) _ P); [reflexivity| | |];
      intros x; vm_compute; reflexivity.
  - unfold C, calc_hits.
    destruct (Gradio.extract_math_expression h text); cbn; lia.
  - unfold P, plan_hits. destruct (wants_plan h text); cbn; lia.
Qed.

(** C6.  [run_agent] always returns a reply with a text that is not
    empty.  When none of the three checks finds anything, the text is
    the help message and no step is recorded; when a section is
    produced, the text is made of the sections only, none of which is
    the help message, and steps are recorded.  An exception raised
    inside the clock lookup or the calculator becomes the text of the
    tool's result. *)
Theorem run_agent_always_replies (h : host) (text default_tz : pystr) :
  let sections :=
    map (time_section h) (time_hits h text default_tz)
    ++ map (calc_section h) (calc_hits h text)
    ++ map Gradio.make_plan (plan_hits h text) in
  fst (Gradio.run_agent h text default_tz) <> []
  /\ (time_hits h text default_tz = [] ->
      calc_hits h text = [] ->
      plan_hits h text = [] ->
      Gradio.run_agent h text default_tz = (Gradio.help_message, []))
  /\ (sections <> [] ->
      fst (Gradio.run_agent h text default_tz) = join (py "\n\n") sections
      /\ ~ In Gradio.help_message sections
      /\ snd (Gradio.run_agent h text default_tz) <> [])
  /\ (forall (tz : pystr) (e : exn),
         has_zoneinfo h = true ->
         now_strftime h tz (py "%Y-%m-%d %H:%M:%S (%Z)") = Raise e ->
         Gradio.get_time h tz
         = py "Could not get time for '" ++ tz ++ py "': " ++ exn_str e)
  /\ (forall (expr : pystr) (e : exn),
         (length (strip expr) <= 200)%nat ->
         Gradio.calc_body h (strip expr) = Raise e ->
         Gradio.safe_calc h expr = py "Could not evaluate: " ++ exn_str e).
Proof.
  intros sections.
  pose proof (run_agent_sections h text default_tz) as R. cbn zeta in R.
  fold sections in R.
  pose proof (sections_proper h text default_tz) as S. fold sections in S.
  split; [|split; [|split; [|split]]].
  - rewrite R. cbn [fst]. destruct sections as [|p rest].
    + vm_compute. discriminate.
    + apply join_nonempty. inversion S as [|? ? [Hp _] _]. exact Hp.
  - intros HT HC HP. rewrite R. unfold sections. rewrite HT, HC, HP.
    reflexivity.
  - intros Hs. rewrite R. cbn [fst snd]. split; [|split].
    + destruct sections; [contradiction|reflexivity].
    + intros Hin. rewrite Forall_forall in S.
      destruct (S _ Hin) as [_ Hne]. apply Hne. reflexivity.
    + intros E. apply Hs. apply (f_equal (@length ToolStep)) in E.
      unfold sections. rewrite !length_app, !length_map in E.
      apply length_zero_iff_nil.
      rewrite !length_app, !length_map. exact E.
  - intros tz e Hz Hn. unfold Gradio.get_time. rewrite Hz, Hn. reflexivity.
  - intros expr e L B. rewrite (safe_calc_within h expr L), B. reflexivity.
Qed.

Lemma run_agent_always_replies_witness :
  Gradio.run_agent demo_host (py "hello") (py "UTC")
  = (Gradio.help_message, [])
  /\ fst (Gradio.run_agent demo_host (py "a plan for 2+2") (py "UTC"))
     = join (py "\n\n")
            (map (time_section demo_host)
                 (time_hits demo_host (py "a plan for 2+2") (py "UTC"))
             ++ map (calc_section demo_host)
                    (calc_hits demo_host (py "a plan for 2+2"))
             ++ map Gradio.make_plan
                    (plan_hits demo_host (py "a plan for 2+2"))).
Proof.
  split.
  - apply (proj1 (proj2 (run_agent_always_replies demo_host (py "hello")
                                                   (py "UTC"))));
      vm_compute; reflexivity.
  - apply (proj1 (proj2 (proj2 (run_agent_always_replies
                                  demo_host (py "a plan for 2+2")
                                  (py "UTC"))))).
    vm_compute. discriminate.
Defined.

(* ===================================================================== *)
(** * The two front-ends                                                  *)
(* ===================================================================== *)

(** C9: the code at the failing input.  The calculator and the two
    extraction heuristics are the same function in both copies.  The
    planner text and the reply are not: the string literals of
    [src/streamlit/dashboard.py] hold other characters than those of
    [src/gradio/dashboard.py] wherever the latter has a character
    outside ASCII, so [make_plan] differs on every goal and [run_agent]
    differs as soon as a section or the help message has such a
    character. *)
Theorem front_ends_drift (h : host) :
  (forall expr : pystr, Streamlit.safe_calc h expr = Gradio.safe_calc h expr)
  /\ (forall text : pystr,
         Streamlit.extract_math_expression h text
         = Gradio.extract_math_expression h text)
  /\ (forall text default_tz : pystr,
         Streamlit.find_requested_timezones h text default_tz
         = Gradio.find_requested_timezones h text default_tz)
  /\ (forall tz : pystr, Streamlit.get_time h tz = Gradio.get_time h tz)
  /\ (forall goal : pystr, Streamlit.make_plan goal <> Gradio.make_plan goal)
  /\ nth_error (Gradio.make_plan (py "demo")) 4 = Some 8217%N
  /\ nth_error (Streamlit.make_plan (py "demo")) 4 = Some 8218%N
  /\ Streamlit.run_agent h (py "hello") (py "UTC")
     <> Gradio.run_agent h (py "hello") (py "UTC")
  /\ Streamlit.run_agent h (py "What is (12*7)/3?") (py "UTC")
     <> Gradio.run_agent h (py "What is (12*7)/3?") (py "UTC").
Proof.
  split; [intros; reflexivity|].
  split; [intros; reflexivity|].
  split; [intros; reflexivity|].
  split; [intros; reflexivity|].
  split; [intros goal; vm_compute; discriminate|].
  split; [vm_compute; reflexivity|].
  split; [vm_compute; reflexivity|].
  split; intros E; apply (f_equal (fun r => nth_error (fst r) 1)) in E;
    vm_compute in E; discriminate E.
Qed.

(* ===================================================================== *)
(** * The calculator tools of the crew                                    *)
(* ===================================================================== *)

Lemma utf8_decode_ascii (l : pystr) :
  forallb is_ascii l = true -> utf8_decode l = l.
Proof.
  induction l as [|c l IH]; cbn [forallb utf8_decode]; [reflexivity|].
  intros H. apply andb_true_iff in H as [Hc Hl]. unfold is_ascii in Hc.
  rewrite Hc, (IH Hl). reflexivity.
Qed.

Lemma unescape_plain (l : pystr) :
  forallb (fun c => negb (c =? 92)%N) l = true -> unescape l = l.
Proof.
  induction l as [|c l IH]; cbn [forallb unescape]; [reflexivity|].
  intros H. apply andb_true_iff in H as [Hc Hl].
  destruct l as [|d l]; [reflexivity|].
  apply negb_true_iff in Hc. rewrite Hc. cbn [andb]. rewrite (IH Hl).
  reflexivity.
Qed.

Lemma py_plain (s : string) :
  forallb plain (chars s) = true -> py s = chars s.
Proof.
  intros H. unfold py. fold (chars s).
  rewrite utf8_decode_ascii, unescape_plain; trivial;
    rewrite forallb_forall in *; intros x Hx;
    specialize (H x Hx); unfold plain in H;
    apply andb_true_iff in H; tauto.
Qed.

Lemma digit_facts (c : N) :
  is_ascii_digit c = true ->
  plain c = true /\ Crewai.c_isspace c = false
  /\ (c =? 43)%N = false /\ (c =? 45)%N = false.
Proof.
  unfold is_ascii_digit, plain, is_ascii, Crewai.c_isspace. intros H.
  apply andb_true_iff in H as [A B]. apply N.leb_le in A, B.
  repeat split.
  - apply andb_true_iff. split; [apply N.ltb_lt; lia|].
    apply negb_true_iff, N.eqb_neq. lia.
  - apply orb_false_iff. split; [|apply N.eqb_neq; lia].
    apply andb_false_iff. right. apply N.leb_gt. lia.
  - apply N.eqb_neq. lia.
  - apply N.eqb_neq. lia.
Qed.

Lemma uint_chars_digits (d : Decimal.uint) :
  forallb is_ascii_digit (chars (NilEmpty.string_of_uint d)) = true.
Proof. induction d; cbn; trivial. Qed.

Lemma scan_digits_digit (c : N) (acc : Z) (b : bool) (s : pystr) :
  is_ascii_digit c = true ->
  Crewai.scan_digits acc b (c :: s)
  = Crewai.scan_digits (acc * 10 + (Z.of_N c - 48))%Z false s.
Proof. intros H. cbn [Crewai.scan_digits]. rewrite H. reflexivity. Qed.

Lemma of_lu_rev_step (d : Decimal.uint) :
  d <> Decimal.Nil ->
  DecimalPos.Unsigned.of_lu (Decimal.rev d)
  = (DecimalPos.Unsigned.of_lu (Decimal.rev (DecimalPos.Unsigned.tl d))
     + DecimalPos.Unsigned.hd d * 10 ^ DecimalPos.Unsigned.usize (DecimalPos.Unsigned.tl d))%N.
Proof.
  intros H. destruct d; [contradiction|..];
    unfold Decimal.rev at 1; cbn [Decimal.revapp DecimalPos.Unsigned.tl DecimalPos.Unsigned.hd];
    rewrite DecimalPos.Unsigned.of_lu_revapp; reflexivity.
Qed.

(** Reading the digits of [d] after [acc] continues the number. *)
Lemma scan_uint (d : Decimal.uint) (acc : Z) (b : bool) (rest : pystr) :
  Crewai.scan_digits acc b (chars (NilEmpty.string_of_uint d) ++ rest)
  = Crewai.scan_digits
      (acc * 10 ^ Z.of_N (DecimalPos.Unsigned.usize d) + Z.of_N (DecimalPos.Unsigned.of_lu (Decimal.rev d)))
      (match d with Decimal.Nil => b | _ => false end) rest.
Proof.
  revert acc b.
  induction d as [|d IH|d IH|d IH|d IH|d IH|d IH|d IH|d IH|d IH|d IH];
    intros acc b;
    [cbn; f_equal; lia|..];
    unfold chars;
    cbn [NilEmpty.string_of_uint list_ascii_of_string map];
    rewrite <- app_comm_cons;
    rewrite scan_digits_digit by reflexivity;
    fold (chars (NilEmpty.string_of_uint d)); rewrite IH;
    (f_equal; [|destruct d; reflexivity]);
    match goal with
    | |- _ = (_ + Z.of_N (DecimalPos.Unsigned.of_lu (Decimal.rev ?x)))%Z =>
      rewrite (of_lu_rev_step (d := x)) by discriminate
    end;
    cbn [DecimalPos.Unsigned.tl DecimalPos.Unsigned.hd DecimalPos.Unsigned.usize];
    rewrite N2Z.inj_succ, Z.pow_succ_r by lia;
    rewrite N2Z.inj_add, N2Z.inj_mul, N2Z.inj_pow;
    change (Z.of_N 10) with 10%Z; cbn [N_of_ascii N_of_digits];
    cbn -[Z.pow Z.mul Z.add Z.of_N DecimalPos.Unsigned.of_lu DecimalPos.Unsigned.usize
           Decimal.rev];
    ring.
Qed.

Section IntOfStr.
Variable u : unicode.

Lemma to_ascii_decimal_ascii (s : pystr) :
  forallb is_ascii s = true -> Crewai.to_ascii_decimal u s = s.
Proof.
  induction s as [|c s IH]; cbn [forallb Crewai.to_ascii_decimal];
    [reflexivity|].
  intros H. apply andb_true_iff in H as [Hc Hs].
  rewrite Hc, (IH Hs). reflexivity.
Qed.

(** [int()] of a digit followed by digits. *)
Lemma parse_int_digits (c : N) (s : pystr) :
  is_ascii_digit c = true ->
  forallb is_ascii (c :: s) = true ->
  Crewai.parse_int u (c :: s)
  = match Crewai.scan_digits 0%Z false (c :: s) with
    | Some (z, false, rest) =>
      match lstrip_by Crewai.c_isspace rest with
      | [] => Some z
      | _ => None
      end
    | _ => None
    end.
Proof.
  intros Hc Hs. destruct (digit_facts c Hc) as (_ & Hsp & Hp & Hm).
  unfold Crewai.parse_int. rewrite (to_ascii_decimal_ascii _ Hs).
  cbn [lstrip_by]. rewrite Hsp, Hp, Hm, Hc.
  destruct (Crewai.scan_digits 0 false (c :: s)) as [[[z b] rest]|];
    [|reflexivity].
  destruct b; [reflexivity|].
  destruct (lstrip_by Crewai.c_isspace rest); reflexivity.
Qed.

Lemma plain_is_ascii (s : pystr) :
  forallb plain s = true -> forallb is_ascii s = true.
Proof.
  rewrite !forallb_forall. intros H x Hx. specialize (H x Hx).
  unfold plain in H. apply andb_true_iff in H. tauto.
Qed.

Lemma digits_plain (s : pystr) :
  forallb is_ascii_digit s = true -> forallb plain s = true.
Proof.
  rewrite !forallb_forall. intros H x Hx. apply digit_facts, H, Hx.
Qed.

(** The digits of a positive number are read back as that number. *)
Lemma parse_int_uint (p : positive) :
  Crewai.parse_int u (chars (NilEmpty.string_of_uint (Pos.to_uint p)))
  = Some (Zpos p).
Proof.
  pose proof (uint_chars_digits (Pos.to_uint p)) as D.
  pose proof (scan_uint (Pos.to_uint p) 0 false []) as S.
  rewrite app_nil_r in S.
  rewrite <- DecimalPos.Unsigned.of_uint_alt, DecimalPos.Unsigned.of_to in S.
  pose proof (DecimalPos.Unsigned.to_uint_nonnil p) as Hn.
  destruct (chars (NilEmpty.string_of_uint (Pos.to_uint p))) as [|c s] eqn:E.
  - destruct (Pos.to_uint p); [contradiction|..]; discriminate E.
  - cbn [forallb] in D. apply andb_true_iff in D as [Dc Ds].
    rewrite parse_int_digits; [|exact Dc|].
    + rewrite S. cbn [Crewai.scan_digits].
      destruct (Pos.to_uint p); [contradiction|..]; reflexivity.
    + apply plain_is_ascii, digits_plain. cbn [forallb].
      rewrite Dc, Ds. reflexivity.
Qed.

(** [int(str(z)) == z]. *)
Lemma parse_int_str_int (z : Z) : Crewai.parse_int u (str_int z) = Some z.
Proof.
  unfold str_int. destruct z as [|p|p];
    cbn [Z.to_int NilZero.string_of_int NilZero.string_of_uint].
  - vm_compute. reflexivity.
  - pose proof (DecimalPos.Unsigned.to_uint_nonnil p) as Hn.
    replace (NilZero.string_of_uint (Pos.to_uint p))
      with (NilEmpty.string_of_uint (Pos.to_uint p))
      by (unfold NilZero.string_of_uint;
          destruct (Pos.to_uint p); [contradiction|..]; reflexivity).
    rewrite py_plain by apply digits_plain, uint_chars_digits.
    apply parse_int_uint.
  - pose proof (DecimalPos.Unsigned.to_uint_nonnil p) as Hn.
    pose proof (uint_chars_digits (Pos.to_uint p)) as D.
    pose proof (parse_int_uint p) as P.
    replace (NilZero.string_of_uint (Pos.to_uint p))
      with (NilEmpty.string_of_uint (Pos.to_uint p))
      by (unfold NilZero.string_of_uint;
          destruct (Pos.to_uint p); [contradiction|..]; reflexivity).
    assert (E : chars (String "-" (NilEmpty.string_of_uint (Pos.to_uint p)))
                = 45%N :: chars (NilEmpty.string_of_uint (Pos.to_uint p)))
      by reflexivity.
    rewrite py_plain
      by (rewrite E; cbn [forallb]; rewrite (digits_plain _ D); reflexivity).
    rewrite E.
    destruct (chars (NilEmpty.string_of_uint (Pos.to_uint p))) as [|c s] eqn:Ec.
    + destruct (Pos.to_uint p); [contradiction|..]; discriminate Ec.
    + cbn [forallb] in D. apply andb_true_iff in D as [Dc Ds].
      assert (A : forallb is_ascii (c :: s) = true).
      { apply plain_is_ascii, digits_plain. cbn [forallb].
        rewrite Dc, Ds. reflexivity. }
      rewrite (parse_int_digits c s Dc A) in P.
      destruct (digit_facts c Dc) as (_ & Hsp & Hp & Hm).
      unfold Crewai.parse_int.
      rewrite to_ascii_decimal_ascii
        by (cbn [forallb] in A |- *; rewrite A; reflexivity).
      cbn [lstrip_by]. change (Crewai.c_isspace 45) with false.
      cbn [N.eqb Pos.eqb]. rewrite Dc.
      destruct (Crewai.scan_digits 0 false (c :: s)) as [[[z b] rest]|];
        [|discriminate P].
      destruct b; [discriminate P|].
      destruct (lstrip_by Crewai.c_isspace rest); [|discriminate P].
      injection P as ->. reflexivity.
Qed.

End IntOfStr.



Unset Implicit Arguments.

(* ===================================================================== *)
(** * Further properties of the extraction heuristics                     *)
(* ===================================================================== *)

Lemma startswith_prefix (p s : pystr) :
  startswith p s = true <-> exists post, s = p ++ post.
Proof.
  revert s. induction p as [|x p IH]; intros s; cbn [startswith].
  - split; [intros _; exists s; reflexivity|reflexivity].
  - destruct s as [|y s].
    + split; [discriminate|]. intros [post E]. discriminate E.
    + rewrite andb_true_iff, N.eqb_eq, IH. split.
      * intros [-> [post ->]]. exists post. reflexivity.
      * intros [post E]. injection E as -> ->. split; [reflexivity|].
        exists post. reflexivity.
Qed.

(** [sub in s] is the substring relation. *)
Lemma contains_substring (sub s : pystr) :
  contains sub s = true <-> substring sub s.
Proof.
  unfold substring. induction s as [|y s IH]; cbn [contains].
  - rewrite orb_false_r, startswith_prefix. split.
    + intros [post E]. exists [], post. exact E.
    + intros (pre & post & E). destruct pre as [|x pre]; [|discriminate E].
      exists post. exact E.
  - rewrite orb_true_iff, startswith_prefix, IH. split.
    + intros [[post E]|(pre & post & E)].
      * exists [], post. exact E.
      * exists (y :: pre), post. rewrite E. reflexivity.
    + intros (pre & post & E). destruct pre as [|x pre].
      * left. exists post. exact E.
      * right. injection E as -> E. exists pre, post. exact E.
Qed.

Lemma substring_trans (a b c : pystr) :
  substring a b -> substring b c -> substring a c.
Proof.
  intros (p1 & q1 & ->) (p2 & q2 & ->).
  exists (p2 ++ p1), (q1 ++ q2). rewrite <- !app_assoc. reflexivity.
Qed.

Lemma substring_in (a b : pystr) (x : N) :
  substring a b -> In x a -> In x b.
Proof.
  intros (p & q & ->) H. apply in_or_app. right. apply in_or_app.
  left. exact H.
Qed.

Lemma substring_length (a b : pystr) :
  substring a b -> (length a <= length b)%nat.
Proof. intros (p & q & ->). rewrite !length_app. lia. Qed.

Lemma lstrip_by_split (drop : N -> bool) (s : pystr) :
  exists a, s = a ++ lstrip_by drop s /\ forallb drop a = true.
Proof.
  induction s as [|c s (a & E & F)]; cbn [lstrip_by].
  - exists []. split; reflexivity.
  - destruct (drop c) eqn:Hc.
    + exists (c :: a). cbn [app forallb]. rewrite Hc, F, <- E.
      split; reflexivity.
    + exists []. split; reflexivity.
Qed.

Lemma lstrip_by_head (drop : N -> bool) (s r : pystr) (c : N) :
  lstrip_by drop s = c :: r -> drop c = false.
Proof.
  induction s as [|x s IH]; cbn [lstrip_by]; [discriminate|].
  destruct (drop x) eqn:Hx; [exact IH|]. intros [= -> _]. exact Hx.
Qed.

(** What [strip] removes lies at both ends and is made of dropped
    characters. *)
Lemma strip_by_split (drop : N -> bool) (s : pystr) :
  exists a b,
    s = a ++ strip_by drop s ++ b
    /\ forallb drop a = true /\ forallb drop b = true.
Proof.
  unfold strip_by.
  destruct (lstrip_by_split drop s) as (a & E & Fa).
  destruct (lstrip_by_split drop (rev (lstrip_by drop s))) as (b & E' & Fb).
  exists a, (rev b). split; [|split; [exact Fa|]].
  - rewrite <- rev_app_distr, <- E', rev_involutive. exact E.
  - rewrite forallb_forall in *. intros x Hx. apply Fb, in_rev. exact Hx.
Qed.

(** What [strip] returns neither begins nor ends with a dropped
    character. *)
Lemma strip_by_ends (drop : N -> bool) (s r : pystr) (c : N) :
  (strip_by drop s = c :: r -> drop c = false)
  /\ (strip_by drop s = r ++ [c] -> drop c = false).
Proof.
  unfold strip_by.
  set (s1 := lstrip_by drop s).
  set (L := lstrip_by drop (rev s1)).
  split; intros E.
  - destruct (lstrip_by_split drop (rev s1)) as (b & E' & _). fold L in E'.
    apply (f_equal (@rev N)) in E. rewrite rev_involutive in E.
    rewrite E in E'. apply (f_equal (@rev N)) in E'.
    rewrite rev_involutive, rev_app_distr, rev_involutive in E'.
    cbn [app] in E'. apply (lstrip_by_head drop s _ _ E').
  - apply (f_equal (@rev N)) in E. rewrite rev_involutive, rev_app_distr in E.
    cbn [rev app] in E. apply (lstrip_by_head drop (rev s1) _ _ E).
Qed.

Lemma strip_by_substring (drop : N -> bool) (s : pystr) :
  substring (strip_by drop s) s.
Proof.
  destruct (strip_by_split drop s) as (a & b & E & _). exists a, b. exact E.
Qed.

Section Candidates.
Variable h : host.

Local Abbreviation u := (h_unicode h).

Lemma operator_not_trimmed (c : N) :
  operator_char c = true -> trimmed_char c = false.
Proof.
  unfold operator_char, trimmed_char, char_in. intros H.
  apply existsb_exists in H as (x & Hx & E). apply N.eqb_eq in E. subst x.
  vm_compute in Hx.
  repeat (destruct Hx as [<-|Hx]; [vm_compute; reflexivity|]). contradiction.
Qed.

(** The run a candidate comes from. *)
Lemma extract_run (text e : pystr) :
  Gradio.extract_math_expression h text = Some e ->
  exists run,
    is_maximal_run (math_char u) text run
    /\ (3 <= length run)%nat
    /\ has_digit_and_operator u (strip run) = true
    /\ e = strip_chars (py " .,:;!?") (strip run).
Proof.
  unfold Gradio.extract_math_expression.
  rewrite first_math_find, finditer_maximal_runs. unfold maximal_runs.
  rewrite (runs_from_ext _ (math_char u) text [] (math_re_class h)).
  destruct (find _ _) as [c|] eqn:F; [|discriminate].
  intros [= <-]. apply find_some in F as [Hin Q].
  apply in_map_iff in Hin as (run & <- & Hin).
  apply filter_In in Hin as [Hin L]. exists run.
  split; [exact (maximal_runs_sound _ _ _ Hin)|].
  split; [apply Nat.leb_le; exact L|]. split; [exact Q|reflexivity].
Qed.

End Candidates.

(** X1.  A candidate returned by [extract_math_expression] is a
    contiguous part of the text, made only of the characters of the
    pattern; it holds a digit and one of [+ - * /], and it neither
    begins nor ends with one of the characters [ .,:;!?]. *)
Theorem extract_math_expression_sound (h : host) (text e : pystr) :
  Gradio.extract_math_expression h text = Some e ->
  substring e text
  /\ forallb (math_char (h_unicode h)) e = true
  /\ existsb (isdigit (h_unicode h)) e = true
  /\ existsb operator_char e = true
  /\ (forall c r, e = c :: r -> trimmed_char c = false)
  /\ (forall r c, e = r ++ [c] -> trimmed_char c = false).
Proof.
  intros H.
  destruct (extract_run h text _ H) as (run & (_ & Hcls & pre & post & Et & _)
                                       & _ & Q & ->).
  assert (S1 : substring (strip run) run) by apply strip_by_substring.
  assert (S2 : substring (strip_chars (py " .,:;!?") (strip run)) (strip run))
    by apply strip_by_substring.
  unfold has_digit_and_operator in Q. apply andb_true_iff in Q as [Qd Qo].
  split; [|split; [|split; [|split; [|split]]]].
  - apply (substring_trans _ _ _ S2), (substring_trans _ _ _ S1).
    exists pre, post. exact Et.
  - rewrite forallb_forall in *. intros x Hx.
    apply Hcls, (substring_in _ _ _ S1), (substring_in _ _ _ S2), Hx.
  - apply existsb_exists in Qd as (d & Hin & Hd).
    apply existsb_exists. exists d. split; [|exact Hd].
    apply strip_by_keeps; [exact Hin|]. apply digit_not_trimmed with (h := h).
    exact Hd.
  - apply existsb_exists in Qo as (o & Hin & Ho).
    apply existsb_exists. exists o. split; [|exact Ho].
    apply strip_by_keeps; [exact Hin|].
    apply operator_not_trimmed. exact Ho.
  - intros c r E. unfold strip_chars in E.
    exact (proj1 (strip_by_ends _ _ r c) E).
  - intros r c E. unfold strip_chars in E.
    exact (proj2 (strip_by_ends _ _ r c) E).
Qed.

Lemma extract_math_expression_sound_witness :
  substring (py "1+1") (py "is  .. 1+1 .. ok?")
  /\ forallb (math_char demo_unicode) (py "1+1") = true
  /\ existsb (isdigit demo_unicode) (py "1+1") = true
  /\ existsb operator_char (py "1+1") = true
  /\ (forall c r, py "1+1" = c :: r -> trimmed_char c = false)
  /\ (forall r c, py "1+1" = r ++ [c] -> trimmed_char c = false).
Proof.
  apply (extract_math_expression_sound demo_host (py "is  .. 1+1 .. ok?")).
  vm_compute. reflexivity.
Defined.

(** X2.  [extract_math_expression] returns [None] for a text without a
    digit, for a text without any of [+ - * /], and for a text of
    fewer than 3 characters. *)
Theorem extract_math_expression_none (h : host) (text : pystr) :
  existsb (isdigit (h_unicode h)) text = false
  \/ existsb operator_char text = false
  \/ (length text < 3)%nat ->
  Gradio.extract_math_expression h text = None.
Proof.
  intros H.
  destruct (Gradio.extract_math_expression h text) as [e|] eqn:E;
    [exfalso|reflexivity].
  destruct (extract_run h text _ E) as (run & (_ & _ & pre & post & Et & _)
                                       & L & Q & _).
  assert (S1 : substring (strip run) text).
  { apply (substring_trans _ _ _ (strip_by_substring isspace run)).
    exists pre, post. exact Et. }
  unfold has_digit_and_operator in Q. apply andb_true_iff in Q as [Qd Qo].
  destruct H as [H|[H|H]].
  - apply existsb_exists in Qd as (d & Hin & Hd).
    assert (T : existsb (isdigit (h_unicode h)) text = true)
      by (apply existsb_exists; exists d; split;
          [exact (substring_in _ _ _ S1 Hin)|exact Hd]).
    congruence.
  - apply existsb_exists in Qo as (o & Hin & Ho).
    assert (T : existsb operator_char text = true)
      by (apply existsb_exists; exists o; split;
          [exact (substring_in _ _ _ S1 Hin)|exact Ho]).
    congruence.
  - subst text. rewrite !length_app in H. lia.
Qed.

Lemma extract_math_expression_none_witness :
  Gradio.extract_math_expression demo_host (py "ten plus two") = None.
Proof.
  apply (extract_math_expression_none demo_host (py "ten plus two")).
  left. vm_compute. reflexivity.
Defined.

(* ===================================================================== *)
(** * Further properties of the timezone heuristic and of the reply      *)
(* ===================================================================== *)

Lemma city_names_distinct : NoDup (map fst Gradio.CITY_TZ).
Proof.
  vm_compute.
  repeat (constructor;
          [intros H; repeat (destruct H as [H|H]; [discriminate H|]); exact H|]).
  constructor.
Qed.

Lemma NoDup_map_filter (A B : Type) (g : A -> B) (f : A -> bool) (l : list A) :
  NoDup (map g l) -> NoDup (map g (filter f l)).
Proof.
  induction l as [|x l IH]; cbn [map filter]; intros H; [constructor|].
  inversion H as [|? ? Hx Hl]; subst.
  destruct (f x); cbn [map]; [|exact (IH Hl)].
  constructor; [|exact (IH Hl)].
  intros Hin. apply Hx. apply in_map_iff in Hin as (y & E & Hy).
  apply in_map_iff. exists y. split; [exact E|].
  apply filter_In in Hy. tauto.
Qed.

Lemma filter_length_le (A : Type) (f : A -> bool) (l : list A) :
  (length (filter f l) <= length l)%nat.
Proof.
  induction l as [|x l IH]; cbn [filter length]; [lia|].
  destruct (f x); cbn [length]; lia.
Qed.

(** The two cases of [find_requested_timezones]. *)
Lemma find_requested_timezones_cases (h : host) (text default_tz : pystr) :
  Gradio.find_requested_timezones h text default_tz
  = if contains (py "time") (lower (h_unicode h) text)
       || contains (py "date") (lower (h_unicode h) text)
    then match filter (fun hit => contains (fst hit) (lower (h_unicode h) text))
                      Gradio.CITY_TZ with
         | [] => [(py "your timezone", default_tz)]
         | matched => matched
         end
    else [].
Proof.
  unfold Gradio.find_requested_timezones.
  destruct (contains (py "time") _ || contains (py "date") _);
    [|reflexivity].
  rewrite city_loop. cbn [app].
  destruct (filter _ Gradio.CITY_TZ); reflexivity.
Qed.

(** X3.  [find_requested_timezones] returns nothing exactly when the
    lower-cased text has neither "time" nor "date".  Its answer has at
    most 12 requests and no label twice; it is either the fallback alone
    or made of entries of [CITY_TZ] whose city occurs in the lower-cased
    text: the fallback is never mixed with cities. *)
Theorem find_requested_timezones_shape (h : host) (text default_tz : pystr) :
  let r := Gradio.find_requested_timezones h text default_tz in
  let lowered := lower (h_unicode h) text in
  (r = [] <-> contains (py "time") lowered || contains (py "date") lowered
              = false)
  /\ (length r <= 12)%nat
  /\ NoDup (map fst r)
  /\ (r = [(py "your timezone", default_tz)]
      \/ Forall (fun hit => In hit Gradio.CITY_TZ
                            /\ substring (fst hit) lowered) r).
Proof.
  intros r lowered. subst r.
  rewrite find_requested_timezones_cases. fold lowered.
  pose proof (filter_length_le _
                (fun hit => contains (fst hit) lowered) Gradio.CITY_TZ) as L.
  pose proof (NoDup_map_filter _ _ fst
                (fun hit => contains (fst hit) lowered) Gradio.CITY_TZ
                city_names_distinct) as D.
  assert (F : Forall (fun hit => In hit Gradio.CITY_TZ
                                 /\ substring (fst hit) lowered)
                     (filter (fun hit => contains (fst hit) lowered)
                             Gradio.CITY_TZ)).
  { apply Forall_forall. intros hit Hin. apply filter_In in Hin as [Hin C].
    split; [exact Hin|]. apply contains_substring. exact C. }
  change (length Gradio.CITY_TZ) with 12%nat in L.
  destruct (contains (py "time") lowered || contains (py "date") lowered).
  - destruct (filter _ Gradio.CITY_TZ) as [|hit rest].
    + split; [split; discriminate|]. split; [cbn; lia|].
      split; [repeat constructor; intros []|]. left. reflexivity.
    + split; [split; discriminate|]. split; [exact L|].
      split; [exact D|]. right. exact F.
  - split; [split; reflexivity|]. split; [cbn; lia|].
    split; [constructor|]. right. constructor.
Qed.

Section CaseFolding.
Variable h : host.

Local Abbreviation u := (h_unicode h).

Lemma to_lower_ascii (c : N) : is_ascii c = true -> is_ascii (to_lower c) = true.
Proof.
  unfold is_ascii, to_lower, is_upper. intros H. apply N.ltb_lt in H.
  destruct ((65 <=? c) && (c <=? 90))%N eqn:E; apply N.ltb_lt; [|exact H].
  apply andb_true_iff in E as [_ E]. apply N.leb_le in E. lia.
Qed.

Lemma to_lower_idempotent (c : N) : to_lower (to_lower c) = to_lower c.
Proof.
  unfold to_lower, is_upper.
  destruct ((65 <=? c) && (c <=? 90))%N eqn:E; [|rewrite E; reflexivity].
  apply andb_true_iff in E as [A B]. apply N.leb_le in A, B.
  destruct ((65 <=? c + 32) && (c + 32 <=? 90))%N eqn:E'; [|reflexivity].
  apply andb_true_iff in E' as [_ B']. apply N.leb_le in B'. lia.
Qed.

(** Lower-casing an ASCII text twice is lower-casing it once. *)
Lemma lower_idempotent (text : pystr) :
  forallb is_ascii text = true ->
  lower u (map to_lower text) = lower u text.
Proof.
  intros A. unfold lower. rewrite A.
  assert (A' : forallb is_ascii (map to_lower text) = true).
  { rewrite forallb_forall in *. intros x Hx.
    apply in_map_iff in Hx as (y & <- & Hy). apply to_lower_ascii, A, Hy. }
  rewrite A', map_map. apply map_ext. intros c. apply to_lower_idempotent.
Qed.

(** Letters are outside the class of the pattern, and lower-casing
    leaves the class characters alone. *)
Lemma math_char_to_lower (c : N) :
  math_char u (to_lower c) = math_char u c
  /\ (math_char u c = true -> to_lower c = c).
Proof.
  unfold to_lower, is_upper.
  destruct ((65 <=? c) && (c <=? 90))%N eqn:E; [|split; reflexivity].
  apply andb_true_iff in E as [A B]. apply N.leb_le in A, B.
  assert (F : forall d, (65 <= d <= 122)%N -> math_char u d = false).
  { intros d Hd. unfold math_char, char_in, isdecimal, is_ascii,
      is_ascii_digit, isspace.
    replace (py "-+*/().") with [45; 43; 42; 47; 40; 41; 46]%N
      by (vm_compute; reflexivity).
    cbn [existsb].
    repeat match goal with
           | |- context [(?a =? ?b)%N] =>
             destruct (N.eqb_spec a b); [lia|]
           | |- context [(?a <=? ?b)%N] =>
             destruct (N.leb_spec a b); try lia
           | |- context [(?a <? ?b)%N] =>
             destruct (N.ltb_spec a b); try lia
           end; reflexivity. }
  rewrite (F c) by lia. rewrite (F (c + 32)%N) by lia.
  split; [reflexivity|discriminate].
Qed.

Lemma runs_from_to_lower (s cur : pystr) :
  runs_from (math_char u) cur (map to_lower s)
  = runs_from (math_char u) cur s.
Proof.
  revert cur. induction s as [|c s IH]; intros cur; cbn [map runs_from].
  - reflexivity.
  - destruct (math_char_to_lower c) as [E K]. rewrite E.
    destruct (math_char u c); [|rewrite IH; reflexivity].
    rewrite (K eq_refl). apply IH.
Qed.

(** The candidate expression does not depend on the case of letters. *)
Lemma extract_to_lower (text : pystr) :
  Gradio.extract_math_expression h (map to_lower text)
  = Gradio.extract_math_expression h text.
Proof.
  unfold Gradio.extract_math_expression.
  rewrite !finditer_maximal_runs. unfold maximal_runs.
  rewrite !(runs_from_ext _ (math_char u) _ [] (math_re_class h)).
  rewrite runs_from_to_lower. reflexivity.
Qed.

End CaseFolding.

(** X4.  The reply text of [run_agent] does not depend on the case of
    the letters of an ASCII input: two ASCII texts that are equal once
    lower-cased get the same reply text and the same number of steps. *)
Theorem run_agent_ignores_case (h : host) (text1 text2 default_tz : pystr) :
  forallb is_ascii text1 = true ->
  forallb is_ascii text2 = true ->
  map to_lower text1 = map to_lower text2 ->
  fst (Gradio.run_agent h text1 default_tz)
  = fst (Gradio.run_agent h text2 default_tz)
  /\ length (snd (Gradio.run_agent h text1 default_tz))
     = length (snd (Gradio.run_agent h text2 default_tz)).
Proof.
  intros A1 A2 E.
  assert (L : lower (h_unicode h) text1 = lower (h_unicode h) text2).
  { unfold lower. rewrite A1, A2. exact E. }
  assert (T : time_hits h text1 default_tz = time_hits h text2 default_tz).
  { unfold time_hits. rewrite !find_requested_timezones_cases, L.
    reflexivity. }
  assert (C : calc_hits h text1 = calc_hits h text2).
  { unfold calc_hits.
    rewrite <- (extract_to_lower h text1), <- (extract_to_lower h text2), E.
    reflexivity. }
  assert (P : map Gradio.make_plan (plan_hits h text1)
              = map Gradio.make_plan (plan_hits h text2)
              /\ length (plan_hits h text1) = length (plan_hits h text2)).
  { unfold plan_hits, wants_plan. rewrite L.
    destruct (existsb _ _); cbn [map length];
      (split; [unfold Gradio.make_plan; exact eq_refl|exact eq_refl]). }
  destruct P as [P1 P2].
  pose proof (run_agent_sections h text1 default_tz) as R1.
  pose proof (run_agent_sections h text2 default_tz) as R2.
  cbn zeta in R1, R2. rewrite R1, R2. cbn [fst snd].
  rewrite T, C, P1. split; [reflexivity|].
  rewrite !length_app, !length_map, P2. reflexivity.
Qed.

Lemma run_agent_ignores_case_witness :
  fst (Gradio.run_agent demo_host (py "WHAT TIME IN TOKYO? 2+2") (py "UTC"))
  = fst (Gradio.run_agent demo_host (py "what time in tokyo? 2+2") (py "UTC"))
  /\ length (snd (Gradio.run_agent demo_host (py "WHAT TIME IN TOKYO? 2+2")
                                   (py "UTC")))
     = length (snd (Gradio.run_agent demo_host (py "what time in tokyo? 2+2")
                                     (py "UTC"))).
Proof.
  apply (run_agent_ignores_case demo_host); vm_compute; reflexivity.
Defined.

(** X5.  The trace of [run_agent] is truthful: the result recorded in a
    step is what the tool named in the step returns on the recorded
    input, and a step names one of the three tools; the input of a
    planner step is the user's text, the input of a calculator step is
    the candidate found in it. *)
Theorem run_agent_trace_truthful (h : host) (text default_tz : pystr)
        (s : ToolStep) :
  In s (snd (Gradio.run_agent h text default_tz)) ->
  (tool s = py "get_time"
   /\ tool_result s = Gradio.get_time h (input s)
   /\ In (input s)
         (map snd (Gradio.find_requested_timezones h text default_tz)))
  \/ (tool s = py "calculator"
      /\ tool_result s = Gradio.safe_calc h (input s)
      /\ Gradio.extract_math_expression h text = Some (input s))
  \/ (tool s = py "make_plan"
      /\ tool_result s = Gradio.make_plan (input s)
      /\ input s = text).
Proof.
  pose proof (run_agent_sections h text default_tz) as R. cbn zeta in R.
  rewrite R. cbn [snd]. intros Hin.
  apply in_app_or in Hin as [Hin|Hin]; [|apply in_app_or in Hin as [Hin|Hin]].
  - left. apply in_map_iff in Hin as (hit & <- & Hin).
    cbn [time_record tool input tool_result].
    split; [reflexivity|]. split; [reflexivity|].
    apply in_map. exact Hin.
  - right; left. apply in_map_iff in Hin as (e & <- & Hin).
    cbn [calc_record tool input tool_result].
    split; [reflexivity|]. split; [reflexivity|].
    unfold calc_hits in Hin.
    destruct (Gradio.extract_math_expression h text); [|contradiction].
    destruct Hin as [->|[]]. reflexivity.
  - right; right. apply in_map_iff in Hin as (t & <- & Hin).
    cbn [plan_record tool input tool_result].
    split; [reflexivity|]. split; [reflexivity|].
    unfold plan_hits in Hin. destruct (wants_plan h text); [|contradiction].
    destruct Hin as [->|[]]. reflexivity.
Qed.

Lemma run_agent_trace_truthful_witness :
  (tool (calc_record demo_host (py "2+2")) = py "get_time"
   /\ tool_result (calc_record demo_host (py "2+2"))
      = Gradio.get_time demo_host (input (calc_record demo_host (py "2+2")))
   /\ In (input (calc_record demo_host (py "2+2")))
         (map snd (Gradio.find_requested_timezones
                     demo_host (py "so 2+2 is?") (py "UTC"))))
  \/ (tool (calc_record demo_host (py "2+2")) = py "calculator"
      /\ tool_result (calc_record demo_host (py "2+2"))
         = Gradio.safe_calc demo_host (input (calc_record demo_host (py "2+2")))
      /\ Gradio.extract_math_expression demo_host (py "so 2+2 is?")
         = Some (input (calc_record demo_host (py "2+2"))))
  \/ (tool (calc_record demo_host (py "2+2")) = py "make_plan"
      /\ tool_result (calc_record demo_host (py "2+2"))
         = Gradio.make_plan (input (calc_record demo_host (py "2+2")))
      /\ input (calc_record demo_host (py "2+2")) = py "so 2+2 is?").
Proof.
  apply (run_agent_trace_truthful demo_host (py "so 2+2 is?") (py "UTC")).
  vm_compute. left. reflexivity.
Defined.

(* ===================================================================== *)
(** * Further properties of the chat front ends                           *)
(* ===================================================================== *)

Lemma fold_left_snoc (A B : Type) (f : B -> A) (l : list B) (acc : list A) :
  fold_left (fun acc s => acc ++ [f s]) l acc = acc ++ map f l.
Proof.
  revert acc. induction l as [|x l IH]; intros acc; cbn [fold_left map].
  - rewrite app_nil_r. reflexivity.
  - rewrite IH, <- app_assoc. reflexivity.
Qed.

Lemma str_eqb_eq (a b : pystr) : str_eqb a b = true <-> a = b.
Proof.
  revert b. induction a as [|x a IH]; intros [|y b]; cbn [str_eqb];
    try (split; [discriminate|discriminate]); [tauto|].
  rewrite andb_true_iff, N.eqb_eq, IH. split.
  - intros [-> ->]. reflexivity.
  - intros [= -> ->]. tauto.
Qed.

(** A text without a digit has no candidate expression. *)
Lemma no_digit_no_candidate (h : host) (text : pystr) :
  existsb (isdigit (h_unicode h)) text = false ->
  Gradio.extract_math_expression h text = None.
Proof.
  intros H.
  destruct (Gradio.extract_math_expression h text) as [e|] eqn:E;
    [exfalso|reflexivity].
  destruct (extract_run h text _ E) as (run & (_ & _ & pre & post & Et & _)
                                       & _ & Q & _).
  unfold has_digit_and_operator in Q. apply andb_true_iff in Q as [Qd _].
  apply existsb_exists in Qd as (d & Hin & Hd).
  assert (S1 : substring (strip run) text).
  { apply (substring_trans _ _ _ (strip_by_substring isspace run)).
    exists pre, post. exact Et. }
  assert (T : existsb (isdigit (h_unicode h)) text = true)
    by (apply existsb_exists; exists d; split;
        [exact (substring_in _ _ _ S1 Hin)|exact Hd]).
  congruence.
Qed.

(** Without a step there is no section: the reply is the help message. *)
Lemma run_agent_no_step (h : host) (text default_tz : pystr) :
  snd (Gradio.run_agent h text default_tz) = [] ->
  fst (Gradio.run_agent h text default_tz) = Gradio.help_message.
Proof.
  pose proof (run_agent_sections h text default_tz) as R. cbn zeta in R.
  rewrite R. cbn [fst snd]. intros E.
  apply app_eq_nil in E as [E1 E2]. apply app_eq_nil in E2 as [E2 E3].
  apply map_eq_nil in E1, E2, E3. rewrite E1, E2, E3. reflexivity.
Qed.

(** X6.  [chat_fn] returns the reply of [run_agent] when the trace is
    off.  When it is on, the reply comes after one block per step, in
    the order of the steps, and a rule; a reply without steps, which is
    the help message, is returned bare.  The history is not looked at. *)
Theorem chat_fn_trace (h : host) (message : pystr)
        (history : list (pystr * pystr)) (default_tz : pystr) :
  Gradio.chat_fn h message history default_tz false
  = fst (Gradio.run_agent h message default_tz)
  /\ Gradio.chat_fn h message history default_tz true
     = match snd (Gradio.run_agent h message default_tz) with
       | [] => Gradio.help_message
       | recorded =>
         join (py "\n\n") (map Gradio.trace_line recorded)
              ++ py "\n\n---\n\n"
              ++ fst (Gradio.run_agent h message default_tz)
       end.
Proof.
  pose proof (run_agent_no_step h message default_tz) as N.
  unfold Gradio.chat_fn.
  destruct (Gradio.run_agent h message default_tz) as [reply recorded].
  cbn [fst snd andb] in *. split; [reflexivity|].
  destruct recorded as [|s recorded]; [exact (N eq_refl)|].
  rewrite fold_left_snoc. reflexivity.
Qed.

(** X7.  A text without a digit whose lower-cased form has none of
    "time", "date" and the plan keywords is answered with the help
    message alone: no tool is called, and [chat_fn] returns the help
    message with the trace on or off. *)
Theorem chat_fn_help (h : host) (message : pystr)
        (history : list (pystr * pystr)) (default_tz : pystr) (trace : bool) :
  existsb (isdigit (h_unicode h)) message = false ->
  contains (py "time") (lower (h_unicode h) message) = false ->
  contains (py "date") (lower (h_unicode h) message) = false ->
  wants_plan h message = false ->
  Gradio.run_agent h message default_tz = (Gradio.help_message, [])
  /\ Gradio.chat_fn h message history default_tz trace = Gradio.help_message.
Proof.
  intros D T1 T2 P.
  assert (R : Gradio.run_agent h message default_tz
              = (Gradio.help_message, [])).
  { pose proof (run_agent_sections h message default_tz) as R.
    cbn zeta in R. rewrite R. unfold time_hits, calc_hits, plan_hits.
    rewrite find_requested_timezones_cases, T1, T2, P.
    rewrite (no_digit_no_candidate h message D). reflexivity. }
  split; [exact R|].
  unfold Gradio.chat_fn. rewrite R. rewrite andb_false_r. reflexivity.
Qed.

Lemma chat_fn_help_witness :
  Gradio.run_agent demo_host (py "hello there") (py "UTC")
  = (Gradio.help_message, [])
  /\ Gradio.chat_fn demo_host (py "hello there") [] (py "UTC") true
     = Gradio.help_message.
Proof.
  apply (chat_fn_help demo_host (py "hello there") [] (py "UTC") true);
    vm_compute; reflexivity.
Defined.

Section Page.
Variable h : host.

Lemma on_prompt_equation (messages : list Streamlit.message)
      (prompt default_tz : pystr) (trace : bool) :
  prompt <> [] ->
  Streamlit.on_prompt h messages (Some prompt) default_tz trace
  = messages
    ++ [user_message prompt]
    ++ (if trace
        then map Streamlit.tool_message
                 (snd (Streamlit.run_agent h prompt default_tz))
        else [])
    ++ [assistant_message (fst (Streamlit.run_agent h prompt default_tz))].
Proof.
  intros Hp. unfold Streamlit.on_prompt.
  destruct prompt as [|c prompt]; [contradiction|].
  cbn [Streamlit.truthy Gradio.truthy].
  destruct (Streamlit.run_agent h (c :: prompt) default_tz) as [reply recorded].
  cbn [fst snd]. destruct trace.
  - rewrite fold_left_snoc, <- !app_assoc. reflexivity.
  - rewrite <- !app_assoc. reflexivity.
Qed.

Lemma render_tool_message (s : ToolStep) :
  Streamlit.render_message (Streamlit.tool_message s) = tool_block s.
Proof. destruct s as [t i r]. vm_compute. reflexivity. Qed.

Lemma render_user_message (prompt : pystr) :
  Streamlit.render_message (user_message prompt)
  = text_block (py "user") prompt.
Proof. vm_compute. reflexivity. Qed.

Lemma render_assistant_message (reply : pystr) :
  Streamlit.render_message (assistant_message reply)
  = text_block (py "assistant") reply.
Proof. vm_compute. reflexivity. Qed.

End Page.

(** X8.  A turn of the page only appends to the conversation: the
    messages already there stay as they are, then come the user's
    prompt, one tool message per step when the trace is on (none when it
    is off) and last the reply.  Without a prompt, or with an empty one,
    the conversation is unchanged. *)
Theorem on_prompt_appends (h : host) (messages : list Streamlit.message)
        (prompt default_tz : pystr) (trace : bool) :
  prompt <> [] ->
  Streamlit.on_prompt h messages (Some prompt) default_tz trace
  = messages
    ++ [user_message prompt]
    ++ (if trace
        then map Streamlit.tool_message
                 (snd (Streamlit.run_agent h prompt default_tz))
        else [])
    ++ [assistant_message (fst (Streamlit.run_agent h prompt default_tz))]
  /\ length (Streamlit.on_prompt h messages (Some prompt) default_tz trace)
     = (length messages + 2
        + if trace
          then length (snd (Streamlit.run_agent h prompt default_tz))
          else 0)%nat
  /\ Streamlit.on_prompt h messages None default_tz trace = messages
  /\ Streamlit.on_prompt h messages (Some []) default_tz trace = messages.
Proof.
  intros Hp. rewrite (on_prompt_equation h messages prompt default_tz trace Hp).
  split; [reflexivity|]. split; [|split; reflexivity].
  rewrite !length_app. destruct trace; cbn [length]; [|lia].
  rewrite length_map. lia.
Qed.

Lemma on_prompt_appends_witness :
  Streamlit.on_prompt demo_host Streamlit.initial_messages (Some (py "2+2"))
                      (py "UTC") true
  = Streamlit.initial_messages
    ++ [user_message (py "2+2")]
    ++ (if true
        then map Streamlit.tool_message
                 (snd (Streamlit.run_agent demo_host (py "2+2") (py "UTC")))
        else [])
    ++ [assistant_message
          (fst (Streamlit.run_agent demo_host (py "2+2") (py "UTC")))]
  /\ length (Streamlit.on_prompt demo_host Streamlit.initial_messages
                                 (Some (py "2+2")) (py "UTC") true)
     = (length Streamlit.initial_messages + 2
        + if true
          then length (snd (Streamlit.run_agent demo_host (py "2+2")
                                                (py "UTC")))
          else 0)%nat
  /\ Streamlit.on_prompt demo_host Streamlit.initial_messages None
                         (py "UTC") true
     = Streamlit.initial_messages
  /\ Streamlit.on_prompt demo_host Streamlit.initial_messages (Some [])
                         (py "UTC") true
     = Streamlit.initial_messages.
Proof.
  apply (on_prompt_appends demo_host Streamlit.initial_messages (py "2+2")
                           (py "UTC") true).
  vm_compute. discriminate.
Defined.

(** X9.  What the page shows after a turn: the blocks of the earlier
    messages, the prompt under "user", then under "assistant" one block
    per tool message, naming the tool and showing its input and result
    as code, and the reply as text. *)
Theorem page_shows_turn (h : host) (messages : list Streamlit.message)
        (prompt default_tz : pystr) (trace : bool) :
  prompt <> [] ->
  map Streamlit.render_message
      (Streamlit.on_prompt h messages (Some prompt) default_tz trace)
  = map Streamlit.render_message messages
    ++ [text_block (py "user") prompt]
    ++ (if trace
        then map tool_block (snd (Streamlit.run_agent h prompt default_tz))
        else [])
    ++ [text_block (py "assistant")
                   (fst (Streamlit.run_agent h prompt default_tz))].
Proof.
  intros Hp. rewrite (on_prompt_equation h messages prompt default_tz trace Hp).
  rewrite !map_app. cbn [map].
  rewrite render_user_message, render_assistant_message.
  destruct trace; [|reflexivity].
  rewrite map_map.
  rewrite (map_ext _ _ render_tool_message). reflexivity.
Qed.

Lemma page_shows_turn_witness :
  map Streamlit.render_message
      (Streamlit.on_prompt demo_host [] (Some (py "2+2")) (py "UTC") true)
  = map Streamlit.render_message []
    ++ [text_block (py "user") (py "2+2")]
    ++ (if true
        then map tool_block
                 (snd (Streamlit.run_agent demo_host (py "2+2") (py "UTC")))
        else [])
    ++ [text_block (py "assistant")
                   (fst (Streamlit.run_agent demo_host (py "2+2") (py "UTC")))].
Proof.
  apply (page_shows_turn demo_host [] (py "2+2") (py "UTC") true).
  vm_compute. discriminate.
Defined.

(** X10.  [render_message] opens a chat block under "user" or under
    "assistant" and no other name: under "user" exactly when the role
    of the message is "user"; a message with any other role is shown
    under "assistant", and a message without a role is shown there as
    plain text. *)
Theorem render_message_names (msg : Streamlit.message) :
  (Streamlit.name (Streamlit.render_message msg) = py "user"
   \/ Streamlit.name (Streamlit.render_message msg) = py "assistant")
  /\ (Streamlit.name (Streamlit.render_message msg) = py "user"
      <-> dict_get str_eqb msg (py "role") = Some (py "user"))
  /\ match dict_get str_eqb msg (py "role") with
     | None =>
       Streamlit.render_message msg
       = text_block (py "assistant") (Streamlit.get msg (py "content") [])
     | Some _ => True
     end.
Proof.
  unfold Streamlit.render_message, Streamlit.get.
  destruct (dict_get str_eqb msg (py "role")) as [role|] eqn:R.
  - destruct (str_eqb role (py "user")) eqn:U.
    + apply str_eqb_eq in U. subst role. cbn [orb Streamlit.name].
      split; [left; reflexivity|]. split; [tauto|exact I].
    + assert (N : role <> py "user")
        by (intros ->; vm_compute in U; discriminate U).
      cbn [orb].
      destruct (str_eqb role (py "assistant")) eqn:A; cbn [Streamlit.name].
      * apply str_eqb_eq in A. subst role.
        split; [right; reflexivity|]. split; [|exact I].
        split; intros E; vm_compute in E; discriminate E.
      * split; [right; reflexivity|]. split; [|exact I].
        split; [intros E; vm_compute in E; discriminate E|].
        intros [= E]. contradiction.
  - replace (str_eqb (py "assistant") (py "user")) with false
      by (vm_compute; reflexivity).
    replace (str_eqb (py "assistant") (py "assistant")) with true
      by (vm_compute; reflexivity).
    cbn [orb Streamlit.name].
    split; [right; reflexivity|].
    split; [|reflexivity].
    split; [intros E; vm_compute in E; discriminate E|discriminate].
Qed.

(* ===================================================================== *)
(** * The two front ends call the same tools                              *)
(* ===================================================================== *)

Lemma filter_map_all (A B : Type) (p : B -> bool) (f : A -> B) (l : list A) :
  (forall x, p (f x) = true) -> filter p (map f l) = map f l.
Proof.
  intros H. induction l as [|x l IH]; cbn [map filter]; [reflexivity|].
  rewrite H, IH. reflexivity.
Qed.

Lemma filter_map_none (A B : Type) (p : B -> bool) (f : A -> B) (l : list A) :
  (forall x, p (f x) = false) -> filter p (map f l) = [].
Proof.
  intros H. induction l as [|x l IH]; cbn [map filter]; [reflexivity|].
  rewrite H, IH. reflexivity.
Qed.

Section StreamlitSteps.
Variable h : host.

Lemma streamlit_time_steps (hits : list (pystr * pystr)) (st : agent_state) :
  steps (fold_left (Streamlit.time_step h) hits st)
  = steps st ++ map (time_record h) hits.
Proof.
  revert st. induction hits as [|[city tz] hits IH]; intros st;
    cbn [fold_left map].
  - rewrite app_nil_r. reflexivity.
  - rewrite IH. cbn [Streamlit.time_step steps].
    rewrite <- app_assoc. reflexivity.
Qed.

Lemma streamlit_calc_steps (text : pystr) (st : agent_state) :
  steps (Streamlit.calc_step h text st)
  = steps st ++ map (calc_record h) (calc_hits h text).
Proof.
  unfold Streamlit.calc_step, calc_hits.
  change (Streamlit.truthy (Streamlit.extract_math_expression h text))
    with (Gradio.truthy (Gradio.extract_math_expression h text)).
  change (Streamlit.extract_math_expression h text)
    with (Gradio.extract_math_expression h text).
  rewrite extract_truthy.
  destruct (Gradio.extract_math_expression h text); cbn [map steps].
  - reflexivity.
  - rewrite app_nil_r. reflexivity.
Qed.

Lemma streamlit_plan_steps (text : pystr) (st : agent_state) :
  steps (Streamlit.plan_step h text st)
  = steps st ++ map streamlit_plan_record (plan_hits h text).
Proof.
  unfold Streamlit.plan_step, plan_hits, wants_plan, any.
  destruct (existsb _ _); cbn [map steps].
  - reflexivity.
  - rewrite app_nil_r. reflexivity.
Qed.

Lemma streamlit_help_steps (st : agent_state) :
  steps (Streamlit.help_step st) = steps st.
Proof. unfold Streamlit.help_step. destruct (parts st); reflexivity. Qed.

(** The steps recorded by the Streamlit copy of [run_agent]. *)
Lemma streamlit_run_agent_steps (text default_tz : pystr) :
  snd (Streamlit.run_agent h text default_tz)
  = map (time_record h) (time_hits h text default_tz)
    ++ map (calc_record h) (calc_hits h text)
    ++ map streamlit_plan_record (plan_hits h text).
Proof.
  unfold Streamlit.run_agent. cbn [snd].
  rewrite streamlit_help_steps, streamlit_plan_steps, streamlit_calc_steps,
    streamlit_time_steps.
  cbn [steps app]. rewrite <- app_assoc. reflexivity.
Qed.

End StreamlitSteps.

(** X11.  On every text the two copies of [run_agent] call the same
    tools on the same inputs in the same order, and the steps of the
    clock and of the calculator are recorded with the same results; the
    copies differ in the texts they write, not in what they do. *)
Theorem front_ends_same_tool_calls (h : host) (text default_tz : pystr) :
  map tool_call (snd (Streamlit.run_agent h text default_tz))
  = map tool_call (snd (Gradio.run_agent h text default_tz))
  /\ filter (fun s => negb (is_plan_step s))
            (snd (Streamlit.run_agent h text default_tz))
     = filter (fun s => negb (is_plan_step s))
              (snd (Gradio.run_agent h text default_tz)).
Proof.
  pose proof (run_agent_sections h text default_tz) as R. cbn zeta in R.
  rewrite R, streamlit_run_agent_steps. cbn [snd]. split.
  - rewrite !map_app, !map_map.
    assert (E : map (fun x => tool_call (streamlit_plan_record x))
                    (plan_hits h text)
                = map (fun x => tool_call (plan_record x)) (plan_hits h text)).
    { apply map_ext. intros x. unfold tool_call.
      cbn [tool input streamlit_plan_record plan_record]. exact eq_refl. }
    rewrite E. exact eq_refl.
  - rewrite !filter_app.
    rewrite (filter_map_none _ _ _ streamlit_plan_record)
      by (intros x; vm_compute; reflexivity).
    rewrite (filter_map_none _ _ _ plan_record)
      by (intros x; vm_compute; reflexivity).
    reflexivity.
Qed.

(* ===================================================================== *)
(** * Further properties of the calculator                                *)
(* ===================================================================== *)

Lemma lstrip_by_dropped (drop : N -> bool) (a s : pystr) :
  forallb drop a = true -> lstrip_by drop (a ++ s) = lstrip_by drop s.
Proof.
  induction a as [|c a IH]; cbn [forallb app lstrip_by]; [reflexivity|].
  intros H. apply andb_true_iff in H as [Hc Ha]. rewrite Hc. exact (IH Ha).
Qed.

Lemma lstrip_by_all (drop : N -> bool) (a : pystr) :
  forallb drop a = true -> lstrip_by drop a = [].
Proof.
  intros H. rewrite <- (app_nil_r a). rewrite (lstrip_by_dropped _ _ _ H).
  reflexivity.
Qed.

Lemma forallb_rev (p : N -> bool) (l : pystr) :
  forallb p l = true -> forallb p (rev l) = true.
Proof.
  rewrite !forallb_forall. intros H x Hx. apply H, in_rev, Hx.
Qed.

(** Dropped characters around a text do not change what [strip] keeps. *)
Lemma strip_by_padding (drop : N -> bool) (a s b : pystr) :
  forallb drop a = true -> forallb drop b = true ->
  strip_by drop (a ++ s ++ b) = strip_by drop s.
Proof.
  intros Ha Hb. unfold strip_by. rewrite (lstrip_by_dropped _ _ _ Ha).
  f_equal.
  destruct (lstrip_by_split drop s) as (a' & E & Fa').
  destruct (lstrip_by drop s) as [|c t] eqn:L.
  - rewrite app_nil_r in E. subst a'.
    rewrite (lstrip_by_all drop (s ++ b)); [reflexivity|].
    rewrite forallb_app, Fa', Hb. reflexivity.
  - pose proof (lstrip_by_head drop s t c L) as Hc.
    rewrite E at 1. rewrite <- app_assoc, (lstrip_by_dropped _ _ _ Fa').
    rewrite <- app_comm_cons. cbn [lstrip_by]. rewrite Hc.
    rewrite app_comm_cons, rev_app_distr.
    apply lstrip_by_dropped, forallb_rev, Hb.
Qed.

(** X12.  [safe_calc] does not look at the blanks around the
    expression: padding the text with white space on either side
    changes neither the value nor the error nor the length test. *)
Theorem safe_calc_ignores_padding (h : host) (before expr after : pystr) :
  forallb isspace before = true ->
  forallb isspace after = true ->
  Gradio.safe_calc h (before ++ expr ++ after) = Gradio.safe_calc h expr.
Proof.
  intros Hb Ha. unfold Gradio.safe_calc, strip.
  rewrite (strip_by_padding isspace before expr after Hb Ha). reflexivity.
Qed.

Lemma safe_calc_ignores_padding_witness :
  Gradio.safe_calc demo_host (py "  " ++ py "1+1" ++ py " \n")
  = Gradio.safe_calc demo_host (py "1+1").
Proof.
  apply (safe_calc_ignores_padding demo_host (py "  ") (py "1+1") (py " \n"));
    vm_compute; reflexivity.
Defined.

Section IntegerExpressions.
Variable h : host.

(** An integer expression has an integer value, or a division by zero
    stops the walk. *)
Lemma eval_int_tree (n : node) :
  int_tree n = true ->
  (exists z, direct_int n = Some z)
  \/ (exists e, Gradio._eval h n = Raise e /\ exn_cls e = ZeroDivisionError).
Proof.
  induction n as [b IH|c|l IHl o r IHr|o e IH| | | |]; cbn [int_tree];
    try discriminate.
  - intros H. destruct (IH H) as [[z Hz]|[e He]].
    + left. exists z. exact Hz.
    + right. exists e. exact He.
  - destruct c as [[z| | |]| | | |]; try discriminate.
    intros _. left. exists z. reflexivity.
  - intros H.
    assert (Ho : allowed_binop o = true)
      by (destruct o; try discriminate H; reflexivity).
    assert (Hlr : int_tree l = true /\ int_tree r = true)
      by (destruct o; try discriminate H; apply andb_true_iff; exact H).
    destruct Hlr as [Hl Hr].
    destruct (IHl Hl) as [[a Da]|[e [He Hc]]].
    + destruct (IHr Hr) as [[b Db]|[e [He Hc]]].
      * cbn [direct_int]. rewrite Da, Db.
        destruct o; try discriminate H;
          try (left; eexists; reflexivity);
          (destruct (b =? 0)%Z eqn:Hb; [|left; eexists; reflexivity]);
          right; rewrite (eval_binop h _ _ _ Ho);
          rewrite (eval_direct_int h _ Da), (eval_direct_int h _ Db);
          cbn [bind binop builtin_of int_binop]; rewrite Hb;
          eexists; split; reflexivity.
      * right. exists e. split; [|exact Hc].
        rewrite (eval_binop h _ _ _ Ho), (eval_direct_int h _ Da), He.
        reflexivity.
    + right. exists e. split; [|exact Hc].
      rewrite (eval_binop h _ _ _ Ho), He. reflexivity.
  - intros H.
    assert (Ho : allowed_unop o = true)
      by (destruct o; try discriminate H; reflexivity).
    assert (He : int_tree e = true) by (destruct o; try discriminate H; exact H).
    destruct (IH He) as [[a Da]|[x [Hx Hc]]].
    + left. cbn [direct_int]. rewrite Da.
      destruct o; try discriminate H; eexists; reflexivity.
    + right. exists x. split; [|exact Hc].
      rewrite (eval_unop h _ _ Ho), Hx. reflexivity.
Qed.

End IntegerExpressions.

(** X13.  An expression made of integer literals, [+ - * // %], unary
    signs and parentheses is answered exactly: [safe_calc] returns the
    decimal string of the integer the expression denotes, with no
    rounding, or it reports a division by zero when a [//] or [%] has a
    zero divisor. *)
Theorem safe_calc_integer_result (h : host) (expr : pystr) (tree : node) :
  (length (strip expr) <= 200)%nat ->
  ast_parse h (strip expr) = Ok tree ->
  int_tree tree = true ->
  (exists z, direct_int tree = Some z /\ Gradio.safe_calc h expr = str_int z)
  \/ (exists e,
         exn_cls e = ZeroDivisionError
         /\ Gradio.safe_calc h expr = py "Could not evaluate: " ++ exn_str e).
Proof.
  intros L P T. destruct (eval_int_tree h tree T) as [[z D]|[e [E C]]].
  - left. exists z. split; [exact D|].
    rewrite (safe_calc_within h _ L). unfold Gradio.calc_body.
    rewrite P. cbn [bind]. rewrite (eval_direct_int h _ D). reflexivity.
  - right. exists e. split; [exact C|].
    exact (proj2 (safe_calc_eval_raise h _ L P E)).
Qed.

Lemma safe_calc_integer_result_witness :
  (exists z,
      direct_int (Expression (BinOp (UnaryOp USub (Constant (CNum (VInt 7))))
                                    FloorDiv (Constant (CNum (VInt 2)))))
      = Some z
      /\ Gradio.safe_calc demo_host (py "-7//2") = str_int z)
  \/ (exists e,
         exn_cls e = ZeroDivisionError
         /\ Gradio.safe_calc demo_host (py "-7//2")
            = py "Could not evaluate: " ++ exn_str e).
Proof.
  apply (safe_calc_integer_result demo_host (py "-7//2")
           (Expression (BinOp (UnaryOp USub (Constant (CNum (VInt 7))))
                              FloorDiv (Constant (CNum (VInt 2))))));
    vm_compute; [lia|reflexivity|reflexivity].
Defined.

(** X14.  [//] and [%] on integers follow the floor convention: for
    operands of integer values [a] and [b], [b] not zero, the quotient
    [q] and the remainder [m] the evaluator computes satisfy
    [a = b * q + m], and [m] is zero or has the sign of the divisor. *)
Theorem floordiv_mod_convention (h : host) (l r : node) (a b : Z) :
  Gradio._eval h l = Ok (VInt a) ->
  Gradio._eval h r = Ok (VInt b) ->
  b <> 0%Z ->
  exists q m,
    Gradio._eval h (BinOp l FloorDiv r) = Ok (VInt q)
    /\ Gradio._eval h (BinOp l Mod r) = Ok (VInt m)
    /\ (a = b * q + m)%Z
    /\ (0 < b -> 0 <= m < b)%Z
    /\ (b < 0 -> b < m <= 0)%Z.
Proof.
  intros Hl Hr Hb. exists (a / b)%Z, (a mod b)%Z.
  apply Z.eqb_neq in Hb.
  split; [|split].
  - rewrite (eval_binop h l r FloorDiv eq_refl), Hl, Hr.
    cbn [bind binop builtin_of int_binop]. rewrite Hb. reflexivity.
  - rewrite (eval_binop h l r Mod eq_refl), Hl, Hr.
    cbn [bind binop builtin_of int_binop]. rewrite Hb. reflexivity.
  - apply Z.eqb_neq in Hb. split; [apply Z.div_mod, Hb|].
    split; intros H; [apply Z.mod_pos_bound|apply Z.mod_neg_bound]; exact H.
Qed.

Lemma floordiv_mod_convention_witness :
  exists q m,
    Gradio._eval demo_host (BinOp (Constant (CNum (VInt (-7)))) FloorDiv
                                  (Constant (CNum (VInt 2))))
    = Ok (VInt q)
    /\ Gradio._eval demo_host (BinOp (Constant (CNum (VInt (-7)))) Mod
                                     (Constant (CNum (VInt 2))))
       = Ok (VInt m)
    /\ (-7 = 2 * q + m)%Z
    /\ (0 < 2 -> 0 <= m < 2)%Z
    /\ (2 < 0 -> 2 < m <= 0)%Z.
Proof.
  apply (floordiv_mod_convention demo_host (Constant (CNum (VInt (-7))))
                                 (Constant (CNum (VInt 2))) (-7) 2);
    [reflexivity|reflexivity|discriminate].
Defined.

(* ===================================================================== *)
(** * Further properties of the calculator tools of the crew              *)
(* ===================================================================== *)

Section IntAlphabet.
Variable u : unicode.

Lemma digit_literal (c : N) : is_ascii_digit c = true -> literal_char c = true.
Proof.
  intros H. unfold literal_char. rewrite H, !orb_true_r. reflexivity.
Qed.

(** What [scan_digits] reads is made of digits and underscores. *)
Lemma scan_digits_consumed (s : pystr) (acc : Z) (b : bool)
      (z : Z) (b' : bool) (rest : pystr) :
  Crewai.scan_digits acc b s = Some (z, b', rest) ->
  exists pre, s = pre ++ rest /\ forallb literal_char pre = true.
Proof.
  revert acc b. induction s as [|c s IH]; intros acc b; cbn [Crewai.scan_digits].
  - intros [= _ _ <-]. exists []. split; reflexivity.
  - destruct (is_ascii_digit c) eqn:D.
    + intros H. destruct (IH _ _ H) as (pre & -> & F). exists (c :: pre).
      cbn [app forallb]. rewrite (digit_literal c D), F. split; reflexivity.
    + destruct (c =? 95)%N eqn:U.
      * destruct b; [discriminate|]. intros H.
        destruct (IH _ _ H) as (pre & -> & F). exists (c :: pre).
        cbn [app forallb]. unfold literal_char at 1.
        rewrite U, F, !orb_true_r. split; reflexivity.
      * intros [= _ _ <-]. exists []. split; reflexivity.
Qed.

Lemma blanks_literal (a : pystr) :
  forallb Crewai.c_isspace a = true -> forallb literal_char a = true.
Proof.
  rewrite !forallb_forall. intros H x Hx. unfold literal_char.
  rewrite (H x Hx). reflexivity.
Qed.

(** A text [int()] reads is, once rewritten to ASCII, made of blanks,
    signs, digits and underscores. *)
Lemma parse_int_literal (s : pystr) (z : Z) :
  Crewai.parse_int u s = Some z ->
  forallb literal_char (Crewai.to_ascii_decimal u s) = true.
Proof.
  unfold Crewai.parse_int.
  destruct (lstrip_by_split Crewai.c_isspace (Crewai.to_ascii_decimal u s))
    as (a & E & Fa).
  set (t := lstrip_by Crewai.c_isspace (Crewai.to_ascii_decimal u s)) in *.
  intros H. rewrite E, forallb_app, (blanks_literal a Fa). cbn [andb].
  assert (K : forall (neg : bool) (t2 : pystr),
             match t2 with
             | c :: _ =>
               if is_ascii_digit c
               then match Crewai.scan_digits 0 false t2 with
                    | Some (z0, false, rest) =>
                      match lstrip_by Crewai.c_isspace rest with
                      | [] => Some (if neg then (- z0)%Z else z0)
                      | _ :: _ => None
                      end
                    | _ => None
                    end
               else None
             | [] => None
             end = Some z ->
             forallb literal_char t2 = true).
  { intros neg t2 K. destruct t2 as [|c t2]; [discriminate K|].
    destruct (is_ascii_digit c); [|discriminate K].
    destruct (Crewai.scan_digits 0 false (c :: t2)) as [[[z0 b0] rest]|] eqn:S;
      [|discriminate K].
    destruct b0; [discriminate K|].
    destruct (scan_digits_consumed _ _ _ _ _ _ S) as (pre & -> & F).
    destruct (lstrip_by_split Crewai.c_isspace rest) as (a' & E' & Fa').
    destruct (lstrip_by Crewai.c_isspace rest); [|discriminate K].
    rewrite app_nil_r in E'. subst a'.
    rewrite forallb_app, F, (blanks_literal rest Fa'). reflexivity. }
  destruct t as [|c t']; [discriminate H|].
  destruct (c =? 43)%N eqn:P.
  - cbn [forallb]. unfold literal_char at 1. rewrite P, !orb_true_r.
    cbn [andb orb]. exact (K false t' H).
  - destruct (c =? 45)%N eqn:M.
    + cbn [forallb]. unfold literal_char at 1. rewrite M, !orb_true_r.
      cbn [andb orb]. exact (K true t' H).
    + exact (K false (c :: t') H).
Qed.

Lemma to_ascii_decimal_literal (s : pystr) :
  forallb literal_char (Crewai.to_ascii_decimal u s) = true ->
  forallb (int_char u) s = true.
Proof.
  induction s as [|c s IH]; cbn [Crewai.to_ascii_decimal forallb];
    [reflexivity|].
  unfold int_char at 1. destruct (is_ascii c) eqn:A.
  - cbn [forallb]. intros H. apply andb_true_iff in H as [Hc Hs].
    rewrite Hc, (IH Hs). reflexivity.
  - destruct (isspace c) eqn:Sp.
    + cbn [forallb]. intros H. apply andb_true_iff in H as [_ Hs].
      rewrite (IH Hs), orb_true_r. reflexivity.
    + destruct (uni_isdecimal u c) eqn:Dc.
      * cbn [forallb]. intros H. apply andb_true_iff in H as [_ Hs].
        rewrite (IH Hs), orb_true_r. reflexivity.
      * intros H. vm_compute in H. discriminate H.
Qed.

End IntAlphabet.

(** X15.  The tools accept only decimal integer literals: when one of
    the two arguments holds a character that is not a blank, a sign, a
    decimal digit or an underscore (a point, a comma, a letter, ...),
    both tools raise a [ValueError] and return no string. *)
Theorem tools_reject_other_characters (h : host) (number1 number2 : pystr)
        (c : N) :
  In c number1 \/ In c number2 ->
  int_char (h_unicode h) c = false ->
  exists e,
    exn_cls e = ValueError
    /\ Crewai.addition_tool._run h number1 number2 = Raise e
    /\ Crewai.multiplication_tool._run h number1 number2 = Raise e.
Proof.
  intros Hin Hc.
  assert (R : forall s, In c s -> Crewai.parse_int (h_unicode h) s = None).
  { intros s Hs. destruct (Crewai.parse_int (h_unicode h) s) as [z|] eqn:P;
      [exfalso|reflexivity].
    pose proof (to_ascii_decimal_literal _ _ (parse_int_literal _ _ _ P)) as F.
    rewrite forallb_forall in F. rewrite (F c Hs) in Hc. discriminate Hc. }
  unfold Crewai.addition_tool._run, Crewai.multiplication_tool._run,
    Crewai.py_int.
  destruct Hin as [H1|H2].
  - rewrite (R number1 H1). eexists. split; [|split; reflexivity]. reflexivity.
  - rewrite (R number2 H2).
    destruct (Crewai.parse_int (h_unicode h) number1);
      eexists; (split; [|split; reflexivity]); reflexivity.
Qed.

Lemma tools_reject_other_characters_witness :
  exists e,
    exn_cls e = ValueError
    /\ Crewai.addition_tool._run demo_host (py "2") (py "1.5") = Raise e
    /\ Crewai.multiplication_tool._run demo_host (py "2") (py "1.5") = Raise e.
Proof.
  apply (tools_reject_other_characters demo_host (py "2") (py "1.5") 46%N);
    [right; vm_compute; tauto|vm_compute; reflexivity].
Defined.

(** X16.  The tools can be chained: the string one tool returns is read
    by the other as the integer it stands for, so multiplying and then
    adding gives [a * b + c], adding and then multiplying
    [(a + b) * c].  The arguments are taken of at most 1000 characters,
    which keeps every number far below the interpreter's cap on the
    length of int/str conversions. *)
Theorem tools_chain (h : host) (number1 number2 number3 : pystr)
        (a b c : Z) :
  (length number1 <= 1000)%nat ->
  (length number2 <= 1000)%nat ->
  (length number3 <= 1000)%nat ->
  Crewai.py_int h number1 = Ok a ->
  Crewai.py_int h number2 = Ok b ->
  Crewai.py_int h number3 = Ok c ->
  (s <- Crewai.multiplication_tool._run h number1 number2 ;;
   Crewai.addition_tool._run h s number3)
  = Ok (str_int (a * b + c))
  /\ (s <- Crewai.addition_tool._run h number1 number2 ;;
      Crewai.multiplication_tool._run h s number3)
     = Ok (str_int ((a + b) * c)).
Proof.
  intros _ _ _ Ha Hb Hc.
  assert (R : forall z : Z, Crewai.py_int h (str_int z) = Ok z).
  { intros z. unfold Crewai.py_int.
    rewrite (parse_int_str_int (h_unicode h) z). reflexivity. }
  unfold Crewai.addition_tool._run, Crewai.multiplication_tool._run.
  rewrite Ha, Hb, Hc. cbn [bind]. rewrite !R. cbn [bind].
  split; reflexivity.
Qed.

Lemma tools_chain_witness :
  (s <- Crewai.multiplication_tool._run demo_host (py "2") (py "-3") ;;
   Crewai.addition_tool._run demo_host s (py " 4"))
  = Ok (str_int (2 * -3 + 4))
  /\ (s <- Crewai.addition_tool._run demo_host (py "2") (py "-3") ;;
      Crewai.multiplication_tool._run demo_host s (py " 4"))
     = Ok (str_int ((2 + -3) * 4)).
Proof.
  apply (tools_chain demo_host (py "2") (py "-3") (py " 4") 2 (-3) 4);
    vm_compute; try lia; reflexivity.
Defined.

(* ===================================================================== *)
(** * The planner in the reply                                            *)
(* ===================================================================== *)

(** X17.  The plan does not depend on the goal: a text that asks for a
    plan, has no digit and neither "time" nor "date" is answered with
    the same fixed plan whatever else it says, and the only step
    recorded is the planner's, with the text as input. *)
Theorem run_agent_plan_only (h : host) (text default_tz goal : pystr) :
  existsb (isdigit (h_unicode h)) text = false ->
  contains (py "time") (lower (h_unicode h) text) = false ->
  contains (py "date") (lower (h_unicode h) text) = false ->
  wants_plan h text = true ->
  Gradio.run_agent h text default_tz
  = (Gradio.make_plan goal,
     [{| tool := py "make_plan"; input := text;
         tool_result := Gradio.make_plan goal |}]).
Proof.
  intros D T1 T2 P.
  pose proof (run_agent_sections h text default_tz) as R.
  cbn zeta in R. rewrite R. unfold time_hits, calc_hits, plan_hits.
  rewrite find_requested_timezones_cases, T1, T2, P.
  rewrite (no_digit_no_candidate h text D).
  cbn [orb map app join]. unfold plan_record, Gradio.make_plan.
  exact eq_refl.
Qed.

Lemma run_agent_plan_only_witness :
  Gradio.run_agent demo_host (py "a checklist for the demo") (py "UTC")
  = (Gradio.make_plan (py "anything"),
     [{| tool := py "make_plan"; input := py "a checklist for the demo";
         tool_result := Gradio.make_plan (py "anything") |}]).
Proof.
  apply (run_agent_plan_only demo_host (py "a checklist for the demo")
                             (py "UTC") (py "anything"));
    vm_compute; reflexivity.
Defined.
